(** * Traffic signal system (src/app.py): a shallow embedding

    The Python module runs one scheduler thread ([manage_signals]), one
    ingestion thread per lane ([detect_vehicles]) and request handlers
    ([video_feed], [signal_data], [vehicle_logs]) over one shared
    [TrafficSignalSystem] object.  The object is modelled as a record, the
    methods as programs of a state-and-exception monad over that record, one
    loop iteration at a time.  Lists indexed by a lane number are stdpp lists
    with the [IndexError] of Python written out. *)

From Stdlib Require Import ZArith QArith Strings.String Strings.Byte Lia.
From stdpp Require Import base tactics option list strings.

Local Open Scope Z_scope.

(** ** Python values used by the module *)

(** Exceptions: the two the interpreter raises on the operations used here,
    the [werkzeug] not-found error of a request handler, and whatever the
    detector raises. *)
Inductive exn : Type :=
| IndexError
| AttributeError
| NotFound
| DetectorError (code : Z).

Inductive result (A : Type) : Type :=
| Ok (a : A)
| Raise (e : exn).
Arguments Ok {A} a.
Arguments Raise {A} e.

(** [l[i]]: lane indices are the non-negative integers of [range(4)] and of
    the route converter [<int:lane_idx>]. *)
Definition getitem {A : Type} (l : list A) (i : nat) : result A :=
  match l !! i with
  | Some x => Ok x
  | None => Raise IndexError
  end.

(** [l[i] = v] *)
Definition setitem {A : Type} (l : list A) (i : nat) (v : A) : result (list A) :=
  if decide (i < length l)%nat then Ok (<[i := v]> l) else Raise IndexError.

(** [[v] * n] *)
Definition py_repeat {A : Type} (v : A) (n : nat) : list A := replicate n v.

(** [a > b] on clock readings and durations. *)
Definition Qgtb (a b : Q) : bool := negb (Qle_bool a b).

(** ** The detector's output *)

(** [v["speed_info"]], of which the module reads only ["kph"]. *)
Record SpeedInfo : Type := { kph : option Q }.

(** One entry of [result["detected_vehicles"]]. *)
Record Vehicle : Type := {
  vehicle_id : Z;
  speed_info : SpeedInfo
}.

(** The dictionary returned by [process_frame]. *)
Record DetectionResult : Type := {
  number_of_vehicles_detected : Z;
  detected_vehicles_of : list Vehicle
}.

(** ** External collaborators

    OpenCV captures, the detector and the JPEG encoder are not part of the
    module; they are an interface the module is written against. *)
Class Collaborators : Type := {
  Frame : Type;
  VideoCapture : Type;
  VehicleDetectionTracker : Type;
  Timestamp : Type;
  (** [cv2.VideoCapture(path)] *)
  cap_open : string -> VideoCapture;
  (** [cap.set(cv2.CAP_PROP_FRAME_WIDTH, w)], [cap.set(cv2.CAP_PROP_FRAME_HEIGHT, h)] *)
  cap_set_frame_width : Z -> VideoCapture -> VideoCapture;
  cap_set_frame_height : Z -> VideoCapture -> VideoCapture;
  (** [cap.set(cv2.CAP_PROP_POS_FRAMES, n)] *)
  cap_set_pos_frames : Z -> VideoCapture -> VideoCapture;
  (** [ret, frame = cap.read()]: [Some frame] stands for [(True, frame)],
      [None] for [(False, None)]. *)
  cap_read : VideoCapture -> option Frame * VideoCapture;
  (** [VehicleDetectionTracker()] *)
  new_tracker : VehicleDetectionTracker;
  (** [tracker.process_frame(frame, timestamp)]: returns or raises, and
      updates the tracker. *)
  process_frame :
    VehicleDetectionTracker -> Frame -> Timestamp ->
    result DetectionResult * VehicleDetectionTracker;
  (** [frame.copy()] *)
  frame_copy : Frame -> Frame;
  (** [cv2.imencode('.jpg', frame)[1].tobytes()] *)
  imencode_jpg : Frame -> list byte
}.

Section System.

Context `{Ext : Collaborators}.

(** ** The shared object *)

Record TrafficSignalSystem : Type := {
  video_paths : list string;
  vehicle_detectors : list VehicleDetectionTracker;
  vehicle_counts : list Z;
  average_speeds : list Q;
  signal_states : list string;
  current_green : nat;
  last_signal_change : Q;
  frames : list (option Frame);
  min_green_time : Z;
  max_green_time : Z;
  detected_vehicles : list (list Vehicle);
  caps : list VideoCapture
}.

Definition set_vehicle_detectors (v : list VehicleDetectionTracker)
    (s : TrafficSignalSystem) : TrafficSignalSystem :=
  {| video_paths := video_paths s; vehicle_detectors := v;
     vehicle_counts := vehicle_counts s; average_speeds := average_speeds s;
     signal_states := signal_states s; current_green := current_green s;
     last_signal_change := last_signal_change s; frames := frames s;
     min_green_time := min_green_time s; max_green_time := max_green_time s;
     detected_vehicles := detected_vehicles s; caps := caps s |}.

Definition set_vehicle_counts (v : list Z)
    (s : TrafficSignalSystem) : TrafficSignalSystem :=
  {| video_paths := video_paths s; vehicle_detectors := vehicle_detectors s;
     vehicle_counts := v; average_speeds := average_speeds s;
     signal_states := signal_states s; current_green := current_green s;
     last_signal_change := last_signal_change s; frames := frames s;
     min_green_time := min_green_time s; max_green_time := max_green_time s;
     detected_vehicles := detected_vehicles s; caps := caps s |}.

Definition set_average_speeds (v : list Q)
    (s : TrafficSignalSystem) : TrafficSignalSystem :=
  {| video_paths := video_paths s; vehicle_detectors := vehicle_detectors s;
     vehicle_counts := vehicle_counts s; average_speeds := v;
     signal_states := signal_states s; current_green := current_green s;
     last_signal_change := last_signal_change s; frames := frames s;
     min_green_time := min_green_time s; max_green_time := max_green_time s;
     detected_vehicles := detected_vehicles s; caps := caps s |}.

Definition set_signal_states (v : list string)
    (s : TrafficSignalSystem) : TrafficSignalSystem :=
  {| video_paths := video_paths s; vehicle_detectors := vehicle_detectors s;
     vehicle_counts := vehicle_counts s; average_speeds := average_speeds s;
     signal_states := v; current_green := current_green s;
     last_signal_change := last_signal_change s; frames := frames s;
     min_green_time := min_green_time s; max_green_time := max_green_time s;
     detected_vehicles := detected_vehicles s; caps := caps s |}.

Definition set_current_green (v : nat)
    (s : TrafficSignalSystem) : TrafficSignalSystem :=
  {| video_paths := video_paths s; vehicle_detectors := vehicle_detectors s;
     vehicle_counts := vehicle_counts s; average_speeds := average_speeds s;
     signal_states := signal_states s; current_green := v;
     last_signal_change := last_signal_change s; frames := frames s;
     min_green_time := min_green_time s; max_green_time := max_green_time s;
     detected_vehicles := detected_vehicles s; caps := caps s |}.

Definition set_last_signal_change (v : Q)
    (s : TrafficSignalSystem) : TrafficSignalSystem :=
  {| video_paths := video_paths s; vehicle_detectors := vehicle_detectors s;
     vehicle_counts := vehicle_counts s; average_speeds := average_speeds s;
     signal_states := signal_states s; current_green := current_green s;
     last_signal_change := v; frames := frames s;
     min_green_time := min_green_time s; max_green_time := max_green_time s;
     detected_vehicles := detected_vehicles s; caps := caps s |}.

Definition set_frames (v : list (option Frame))
    (s : TrafficSignalSystem) : TrafficSignalSystem :=
  {| video_paths := video_paths s; vehicle_detectors := vehicle_detectors s;
     vehicle_counts := vehicle_counts s; average_speeds := average_speeds s;
     signal_states := signal_states s; current_green := current_green s;
     last_signal_change := last_signal_change s; frames := v;
     min_green_time := min_green_time s; max_green_time := max_green_time s;
     detected_vehicles := detected_vehicles s; caps := caps s |}.

Definition set_detected_vehicles (v : list (list Vehicle))
    (s : TrafficSignalSystem) : TrafficSignalSystem :=
  {| video_paths := video_paths s; vehicle_detectors := vehicle_detectors s;
     vehicle_counts := vehicle_counts s; average_speeds := average_speeds s;
     signal_states := signal_states s; current_green := current_green s;
     last_signal_change := last_signal_change s; frames := frames s;
     min_green_time := min_green_time s; max_green_time := max_green_time s;
     detected_vehicles := v; caps := caps s |}.

Definition set_caps (v : list VideoCapture)
    (s : TrafficSignalSystem) : TrafficSignalSystem :=
  {| video_paths := video_paths s; vehicle_detectors := vehicle_detectors s;
     vehicle_counts := vehicle_counts s; average_speeds := average_speeds s;
     signal_states := signal_states s; current_green := current_green s;
     last_signal_change := last_signal_change s; frames := frames s;
     min_green_time := min_green_time s; max_green_time := max_green_time s;
     detected_vehicles := detected_vehicles s; caps := v |}.

(** ** Methods as programs over the object

    A method body reads and writes fields of [self] and may raise; writes made
    before a raise stay. *)
Definition M (A : Type) : Type :=
  TrafficSignalSystem -> result A * TrafficSignalSystem.

Definition ret {A : Type} (a : A) : M A := fun s => (Ok a, s).

Definition bind {A B : Type} (m : M A) (k : A -> M B) : M B :=
  fun s =>
    match m s with
    | (Ok a, s') => k a s'
    | (Raise e, s') => (Raise e, s')
    end.

Definition raise {A : Type} (e : exn) : M A := fun s => (Raise e, s).

(** [self.field] *)
Definition gets {A : Type} (field : TrafficSignalSystem -> A) : M A :=
  fun s => (Ok (field s), s).

(** [self.field = v] *)
Definition puts {A : Type}
    (setter : A -> TrafficSignalSystem -> TrafficSignalSystem) (v : A) : M unit :=
  fun s => (Ok tt, setter v s).

Definition lift {A : Type} (r : result A) : M A := fun s => (r, s).

(** [self.field[i]] *)
Definition load {A : Type} (field : TrafficSignalSystem -> list A) (i : nat) : M A :=
  bind (gets field) (fun l => lift (getitem l i)).

(** [self.field[i] = v] *)
Definition store {A : Type} (field : TrafficSignalSystem -> list A)
    (setter : list A -> TrafficSignalSystem -> TrafficSignalSystem)
    (i : nat) (v : A) : M unit :=
  bind (gets field) (fun l =>
  bind (lift (setitem l i v)) (fun l' => puts setter l')).

End System.

Declare Scope py_scope.
Delimit Scope py_scope with py.
Notation "x <- m ;; k" := (bind m (fun x => k))
  (at level 100, m at next level, right associativity) : py_scope.
Notation "m ;;; k" := (bind m (fun _ => k))
  (at level 100, right associativity) : py_scope.

Section Scheduler.

Context `{Ext : Collaborators}.
Local Open Scope py_scope.

(** ** [get_green_time] *)
Definition get_green_time (self : TrafficSignalSystem) (vehicle_count : Z) : Z :=
  if vehicle_count <? 5 then min_green_time self
  else if vehicle_count <? 15 then (max_green_time self + min_green_time self) / 2
  else max_green_time self.

(** ** [__init__]

    [now] is the reading of [time.time()] in the constructor.  The scheduler
    thread the constructor starts is the sequence of [manage_signals_tick]
    steps below. *)
Definition init (paths : list string) (now : Q) : TrafficSignalSystem :=
  {| video_paths := paths;
     vehicle_detectors := py_repeat new_tracker 4;
     vehicle_counts := py_repeat 0 4;
     average_speeds := py_repeat 0%Q 4;
     signal_states := py_repeat "red"%string 4;
     current_green := 0%nat;
     last_signal_change := now;
     frames := py_repeat None 4;
     min_green_time := 10;
     max_green_time := 60;
     detected_vehicles := py_repeat [] 4;
     caps := map (fun p => cap_set_frame_height 240 (cap_set_frame_width 320 (cap_open p)))
                 paths |}.

(** ** [manage_signals]: one iteration of the [while True] loop

    [current_time] is the reading of [time.time()] of this iteration; the
    [time.sleep(1)] between iterations is the spacing of the readings. *)
Definition manage_signals_tick (current_time : Q) : M unit :=
  last <- gets last_signal_change ;;
  cur <- gets current_green ;;
  count <- load vehicle_counts cur ;;
  green_time <- gets (fun self => get_green_time self count) ;;
  if Qgtb (current_time - last) (inject_Z green_time) then
    cur <- gets current_green ;;
    store signal_states set_signal_states cur "red"%string ;;;
    cur <- gets current_green ;;
    puts set_current_green ((cur + 1) mod 4)%nat ;;;
    cur <- gets current_green ;;
    store signal_states set_signal_states cur "green"%string ;;;
    puts set_last_signal_change current_time
  else
    ret tt.

End Scheduler.

Section Pipeline.

Context `{Ext : Collaborators}.
Local Open Scope py_scope.

(** ** [process_lane_result] *)

(** [np.mean(speeds)] on a non-empty list, as the exact quotient of the sum
    by the length. *)
Definition np_mean (speeds : list Q) : Q :=
  (fold_left Qplus speeds 0 / inject_Z (Z.of_nat (length speeds)))%Q.

(** [[v["speed_info"]["kph"] for v in vs if v["speed_info"]["kph"] is not None]] *)
Definition reported_speeds (vs : list Vehicle) : list Q :=
  omap (fun v => kph (speed_info v)) vs.

(** [np.mean(speeds) if speeds else 0] *)
Definition average_of (speeds : list Q) : Q :=
  match speeds with
  | [] => 0%Q
  | _ :: _ => np_mean speeds
  end.

Definition process_lane_result (res : DetectionResult) (lane_idx : nat) : M unit :=
  store vehicle_counts set_vehicle_counts lane_idx (number_of_vehicles_detected res) ;;;
  let speeds := reported_speeds (detected_vehicles_of res) in
  store average_speeds set_average_speeds lane_idx (average_of speeds) ;;;
  store detected_vehicles set_detected_vehicles lane_idx (detected_vehicles_of res).

(** ** [detect_vehicles]: one iteration of the [while True] loop

    [frame_count] is the local counter, returned as updated; [timestamp] is
    the reading of [datetime.now()].  [cap] is the object [self.caps[lane_idx]],
    which [read] and [set] update in place.  A [Raise] ends the loop, and with
    it the lane's thread: the function has no handler. *)
Definition frame_skip : Z := 3.

Definition detect_vehicles_iter (lane_idx : nat) (timestamp : Timestamp)
    (frame_count : Z) : M Z :=
  cap <- load caps lane_idx ;;
  let (frame, cap') := cap_read cap in
  store caps set_caps lane_idx cap' ;;;
  match frame with
  | Some frame =>
      (if frame_count mod frame_skip =? 0 then
         tracker <- load vehicle_detectors lane_idx ;;
         let (res, tracker') := process_frame tracker frame timestamp in
         store vehicle_detectors set_vehicle_detectors lane_idx tracker' ;;;
         res <- lift res ;;
         store frames set_frames lane_idx (Some frame) ;;;
         process_lane_result res lane_idx
       else ret tt) ;;;
      ret (frame_count + 1)
  | None =>
      cap <- load caps lane_idx ;;
      store caps set_caps lane_idx (cap_set_pos_frames 0 cap) ;;;
      ret frame_count
  end.

(** The loop, for as many iterations as there are clock readings. *)
Fixpoint detect_vehicles_loop (lane_idx : nat) (timestamps : list Timestamp)
    (frame_count : Z) : M Z :=
  match timestamps with
  | [] => ret frame_count
  | t :: rest =>
      frame_count' <- detect_vehicles_iter lane_idx t frame_count ;;
      detect_vehicles_loop lane_idx rest frame_count'
  end.

(** [detect_vehicles(lane_idx)], started by the module with a fresh counter. *)
Definition detect_vehicles (lane_idx : nat) (timestamps : list Timestamp) : M Z :=
  detect_vehicles_loop lane_idx timestamps 0.

(** *** The writes of one publication, one by one

    Lines 75, 58, 60 and 61 are four separate subscript stores with no lock
    around them; another thread can run between any two. *)
Definition publish_writes (frame : Frame) (res : DetectionResult) (lane_idx : nat)
    : list (M unit) :=
  [ store frames set_frames lane_idx (Some frame);
    store vehicle_counts set_vehicle_counts lane_idx (number_of_vehicles_detected res);
    store average_speeds set_average_speeds lane_idx
          (average_of (reported_speeds (detected_vehicles_of res)));
    store detected_vehicles set_detected_vehicles lane_idx (detected_vehicles_of res) ].

Fixpoint run_writes (ws : list (M unit)) : M unit :=
  match ws with
  | [] => ret tt
  | w :: rest => w ;;; run_writes rest
  end.

(** What a reader finds for one lane at one instant. *)
Record LaneView : Type := {
  view_frame : option (option Frame);
  view_vehicle_count : option Z;
  view_average_speed : option Q;
  view_vehicles : option (list Vehicle)
}.

Definition lane_view (lane_idx : nat) (s : TrafficSignalSystem) : LaneView :=
  {| view_frame := frames s !! lane_idx;
     view_vehicle_count := vehicle_counts s !! lane_idx;
     view_average_speed := average_speeds s !! lane_idx;
     view_vehicles := detected_vehicles s !! lane_idx |}.

(** The state a reader finds when it runs after the first [k] writes. *)
Definition state_after_writes (k : nat) (frame : Frame) (res : DetectionResult)
    (lane_idx : nat) (s : TrafficSignalSystem) : TrafficSignalSystem :=
  snd (run_writes (take k (publish_writes frame res lane_idx)) s).

End Pipeline.

Section Publisher.

Context `{Ext : Collaborators}.
Local Open Scope py_scope.

(** ** [generate_frame] *)

Definition CRLF : list byte := [x0d; x0a].

(** [b'--frame\r\n' b'Content-Type: image/jpeg\r\n\r\n'] *)
Definition part_header : list byte :=
  list_byte_of_string "--frame" ++ CRLF ++
  list_byte_of_string "Content-Type: image/jpeg" ++ CRLF ++ CRLF.

Inductive gen_step : Type :=
| Yield (payload : list byte)
| Spin.

(** One iteration of the generator's [while True] loop: it yields, or goes
    round again without yielding. *)
Definition generate_frame_iter (lane_idx : nat) : M gen_step :=
  f <- load frames lane_idx ;;
  match f with
  | Some _ =>
      f <- load frames lane_idx ;;
      match f with
      | Some f =>
          let frame := frame_copy f in
          let frame_bytes := imencode_jpg frame in
          ret (Yield (part_header ++ frame_bytes ++ CRLF))
      | None => raise AttributeError
      end
  | None => ret Spin
  end.

(** [next(gen)]: iterations until the first yield, at most [fuel] of them;
    [None] when none of them yielded. *)
Fixpoint generator_next (fuel : nat) (lane_idx : nat) : M (option (list byte)) :=
  match fuel with
  | O => ret None
  | S fuel' =>
      step <- generate_frame_iter lane_idx ;;
      match step with
      | Yield payload => ret (Some payload)
      | Spin => generator_next fuel' lane_idx
      end
  end.

(** The first [n] elements of the stream, each [next] bounded by [fuel]
    iterations; the stream ends short only where a [next] did not yield. *)
Fixpoint generator_take (n fuel : nat) (lane_idx : nat) : M (list (list byte)) :=
  match n with
  | O => ret []
  | S n' =>
      p <- generator_next fuel lane_idx ;;
      match p with
      | Some payload =>
          rest <- generator_take n' fuel lane_idx ;;
          ret (payload :: rest)
      | None => ret []
      end
  end.

(** A generator object: calling [generate_frame(lane_idx)] runs none of its
    body and only binds the argument. *)
Record Generator : Type := { gen_lane_idx : nat }.

Definition generate_frame (lane_idx : nat) : Generator :=
  {| gen_lane_idx := lane_idx |}.

(** ** [video_feed] *)
Record Response : Type := {
  response_body : Generator;
  response_mimetype : string;
  response_status : Z
}.

Definition video_feed (lane_idx : nat) : result Response :=
  Ok {| response_body := generate_frame lane_idx;
        response_mimetype := "multipart/x-mixed-replace; boundary=frame";
        response_status := 200 |}.

(** ** [signal_data] *)
Record SignalInfo : Type := {
  lane : Z;
  vehicle_count : Z;
  signal : string
}.

(** The [for i in range(4)] loop, over the indices still to visit. *)
Fixpoint signal_data_loop (indices : list nat) (signal_info : list SignalInfo)
    : M (list SignalInfo) :=
  match indices with
  | [] => ret signal_info
  | i :: rest =>
      count <- load vehicle_counts i ;;
      colour <- load signal_states i ;;
      signal_data_loop rest
        (signal_info ++ [{| lane := Z.of_nat i + 1;
                            vehicle_count := count;
                            signal := colour |}])
  end.

Definition signal_data : M (list SignalInfo) :=
  signal_data_loop (seq 0 4) [].

End Publisher.

Section Runs.

Context `{Ext : Collaborators}.

(** ** Interleavings

    The threads take turns, one loop iteration each.  An iteration that raises
    ends its thread; what it wrote before stays for the others.  A pipeline
    iteration carries the value of its thread's local counter. *)
Inductive event : Type :=
| SchedulerTick (current_time : Q)
| PipelineIter (lane_idx : nat) (timestamp : Timestamp) (frame_count : Z)
| StreamIter (lane_idx : nat).

Definition step (e : event) (s : TrafficSignalSystem) : TrafficSignalSystem :=
  match e with
  | SchedulerTick t => snd (manage_signals_tick t s)
  | PipelineIter lane_idx ts fc => snd (detect_vehicles_iter lane_idx ts fc s)
  | StreamIter lane_idx => snd (generate_frame_iter lane_idx s)
  end.

Definition run (evs : list event) (s : TrafficSignalSystem) : TrafficSignalSystem :=
  fold_left (fun s e => step e s) evs s.

(** The clock readings of the scheduler's checks in an interleaving. *)
Definition checks (evs : list event) : list Q :=
  omap (fun e => match e with SchedulerTick t => Some t | _ => None end) evs.

(** The reading of the first check that moves the green lane on. *)
Fixpoint phase_end (evs : list event) (s : TrafficSignalSystem) : option Q :=
  match evs with
  | [] => None
  | e :: rest =>
      let s' := step e s in
      match e with
      | SchedulerTick t =>
          if decide (current_green s' = current_green s)
          then phase_end rest s' else Some t
      | _ => phase_end rest s'
      end
  end.

(** Lanes shown green. *)
Definition green_lanes (s : TrafficSignalSystem) : list nat :=
  filter (fun i => signal_states s !! i = Some "green"%string)
         (seq 0 (length (signal_states s))).

(** Lane [i] is green and every other lane is red. *)
Definition only_green (i : nat) (s : TrafficSignalSystem) : Prop :=
  signal_states s =
  <[i := "green"%string]> (py_repeat "red"%string (length (signal_states s)))
  /\ (i < length (signal_states s))%nat.

(** What the scheduler relies on and every step keeps. *)
Definition scheduler_wf (s : TrafficSignalSystem) : Prop :=
  length (vehicle_counts s) = 4%nat /\
  length (signal_states s) = 4%nat /\
  (current_green s < 4)%nat /\
  min_green_time s = 10 /\
  max_green_time s = 60.

(** The state after a transition at [t]. *)
Definition advanced (t : Q) (s : TrafficSignalSystem) : TrafficSignalSystem :=
  let next := ((current_green s + 1) mod 4)%nat in
  set_last_signal_change t
    (set_signal_states
       (<[next := "green"%string]> (<[current_green s := "red"%string]> (signal_states s)))
       (set_current_green next s)).

(** What the ingestion and streaming code leaves to the scheduler. *)
Definition same_schedule (s s' : TrafficSignalSystem) : Prop :=
  signal_states s' = signal_states s /\
  current_green s' = current_green s /\
  last_signal_change s' = last_signal_change s /\
  min_green_time s' = min_green_time s /\
  max_green_time s' = max_green_time s /\
  length (vehicle_counts s') = length (vehicle_counts s).

(** *** Programs that keep a relation between the state before and after *)

Definition preserves {A : Type} (R : TrafficSignalSystem -> TrafficSignalSystem -> Prop)
    (m : M A) : Prop :=
  forall s, R s (snd (m s)).

(** The lists a lane's pipeline indexes are long enough for [lane_idx]. *)
Definition pipeline_wf (lane_idx : nat) (s : TrafficSignalSystem) : Prop :=
  (lane_idx < length (caps s))%nat /\
  (lane_idx < length (vehicle_detectors s))%nat /\
  (lane_idx < length (frames s))%nat /\
  (lane_idx < length (vehicle_counts s))%nat /\
  (lane_idx < length (average_speeds s))%nat /\
  (lane_idx < length (detected_vehicles s))%nat.

(** The arithmetic mean of the speeds of the vehicles that report one, in the
    words of the specification: the sum over those vehicles divided by their
    number. *)
Definition reports_speed (v : Vehicle) : bool :=
  match kph (speed_info v) with Some _ => true | None => false end.

Definition speed_or_zero (v : Vehicle) : Q :=
  match kph (speed_info v) with Some q => q | None => 0%Q end.

Definition mean_reported_speed (vs : list Vehicle) : Q :=
  let reporting := List.filter reports_speed vs in
  (fold_right (fun v acc => speed_or_zero v + acc) 0 reporting
   / inject_Z (Z.of_nat (length reporting)))%Q.

(** The capture after the read of an iteration that found no frame. *)
Definition rewound (lane_idx : nat) (cap' : VideoCapture)
    (s : TrafficSignalSystem) : TrafficSignalSystem :=
  set_caps (<[lane_idx := cap_set_pos_frames 0 cap']> (caps s)) s.

(** The freeze-at-entry reading of the dwell time, for the phase running in
    [s]: the check that ends the phase is fixed by [s] and the clock, whatever
    the pipelines publish in between. *)
Definition duration_fixed_at_entry (s : TrafficSignalSystem) : Prop :=
  forall evs1 evs2 : list event,
    checks evs1 = checks evs2 -> phase_end evs1 s = phase_end evs2 s.

(** The atomic reading of a publication: at whatever point between the writes
    a reader looks at the lane, it finds the lane as it was before the
    publication or as it is after it. *)
Definition publication_atomic (frame : Frame) (res : DetectionResult)
    (lane_idx : nat) (s : TrafficSignalSystem) : Prop :=
  forall k : nat,
    lane_view lane_idx (state_after_writes k frame res lane_idx s)
      = lane_view lane_idx s \/
    lane_view lane_idx (state_after_writes k frame res lane_idx s)
      = lane_view lane_idx (state_after_writes 4 frame res lane_idx s).

End Runs.

(** ** A file-backed capture and a scripted detector

    A capture over a finite recording, as the module uses one: [read] hands
    out the frames in order and fails at the end, [set(CAP_PROP_POS_FRAMES, n)]
    moves the position.  The detector is a function of the frame; the tracker
    counts its calls. *)
Record FileCapture (F : Type) : Type := {
  video : list F;
  pos : nat
}.
Arguments video {F} _.
Arguments pos {F} _.

Definition file_read {F : Type} (c : FileCapture F) : option F * FileCapture F :=
  match video c !! pos c with
  | Some f => (Some f, {| video := video c; pos := S (pos c) |})
  | None => (None, c)
  end.

Definition file_set_pos {F : Type} (n : Z) (c : FileCapture F) : FileCapture F :=
  {| video := video c; pos := Z.to_nat n |}.

Definition file_backed (F : Type) (library : string -> list F)
    (detector : F -> result DetectionResult) (encode : F -> list byte)
    : Collaborators := {|
  Frame := F;
  VideoCapture := FileCapture F;
  VehicleDetectionTracker := nat;
  Timestamp := Q;
  cap_open := fun path => {| video := library path; pos := 0 |};
  cap_set_frame_width := fun _ c => c;
  cap_set_frame_height := fun _ c => c;
  cap_set_pos_frames := file_set_pos;
  cap_read := file_read;
  new_tracker := 0%nat;
  process_frame := fun calls f _ => (detector f, S calls);
  frame_copy := fun f => f;
  imencode_jpg := encode
|}.

(** *** A small intersection to run the module on *)

(** A frame, as the scripted detector sees it: the vehicles in view, and
    whether the detector chokes on it. *)
Record Scene : Type := {
  in_view : list Vehicle;
  chokes : bool
}.

Definition scripted_detector (f : Scene) : result DetectionResult :=
  if chokes f then Raise (DetectorError 1)
  else Ok {| number_of_vehicles_detected := Z.of_nat (length (in_view f));
             detected_vehicles_of := in_view f |}.

Definition car (id : Z) (speed : option Q) : Vehicle :=
  {| vehicle_id := id; speed_info := {| kph := speed |} |}.

Definition empty_road : Scene := {| in_view := []; chokes := false |}.
Definition three_cars : Scene :=
  {| in_view := [car 1 (Some 30%Q); car 2 None; car 3 (Some 50%Q)]; chokes := false |}.
Definition one_car : Scene :=
  {| in_view := [car 7 (Some 20%Q)]; chokes := false |}.
Definition jam : Scene :=
  {| in_view := map (fun i => car (Z.of_nat i) None) (seq 0 20); chokes := false |}.
Definition glitch : Scene := {| in_view := []; chokes := true |}.

(** The recordings behind the four paths. *)
Definition recordings (path : string) : list Scene :=
  if String.eqb path "a.mp4" then [three_cars; empty_road]
  else if String.eqb path "b.mp4" then [jam; jam; jam; jam]
  else if String.eqb path "c.mp4" then [one_car; empty_road; empty_road; glitch]
  else [].

Definition scene_bytes (f : Scene) : list byte :=
  map (fun v => match Byte.of_N (Z.to_N (vehicle_id v)) with
                | Some b => b
                | None => x00
                end) (in_view f).

Definition demo : Collaborators :=
  file_backed Scene recordings scripted_detector scene_bytes.

Definition demo_paths : list string :=
  ["a.mp4"; "b.mp4"; "c.mp4"; "d.mp4"]%string.

Definition demo_system : @TrafficSignalSystem demo := @init demo demo_paths 0%Q.

Section DemoRuns.

#[local] Existing Instance demo.

(** A check every second, from [a] seconds on. *)
Definition ticks_from (a n : nat) : list event :=
  map (fun k => SchedulerTick (inject_Z (Z.of_nat k))) (seq a n).

(** Lane 1 turned green at the check of second 11, with no vehicle counted. *)
Definition lane1_green : TrafficSignalSystem :=
  run [SchedulerTick 11%Q] demo_system.

(** Nothing is published during the phase. *)
Definition quiet_phase : list event := ticks_from 12 70.

(** Between the checks of seconds 15 and 16, lane 1's pipeline publishes a
    count of 20. *)
Definition busy_phase : list event :=
  ticks_from 12 4 ++ [PipelineIter 1 (31 # 2)%Q 0] ++ ticks_from 16 66.

(** An observation of three vehicles with speeds 30, none and 50. *)
Definition scenario_c : DetectionResult :=
  {| number_of_vehicles_detected := 3;
     detected_vehicles_of := in_view three_cars |}.

(** Lane 0 after its pipeline published the observation of [three_cars]. *)
Definition lane0_published : TrafficSignalSystem :=
  run [PipelineIter 0 1%Q 0] demo_system.

(** Lane 0 in the fifth iteration of its pipeline, between the detector's
    return (line 74) and the first store of the publication (line 75): the
    recording was rewound once, the second frame has been read again, and the
    lane still shows the observation of [three_cars]. *)
Definition lane0_fifth_read : TrafficSignalSystem :=
  let s4 := snd (detect_vehicles 0 [1; 2; 3; 4]%Q demo_system) in
  set_vehicle_detectors (<[0%nat := 2%nat]> (vehicle_detectors s4))
    (set_caps (<[0%nat := {| video := recordings "a.mp4"; pos := 2 |}]> (caps s4)) s4).

(** The observation that iteration publishes, of the empty road. *)
Definition next_observation : DetectionResult :=
  {| number_of_vehicles_detected := 0; detected_vehicles_of := [] |}.

(** Lane 2 after three iterations of its pipeline: the first frame was
    processed, the next two were skipped, and the frame the detector chokes
    on is next. *)
Definition lane2_before_glitch : TrafficSignalSystem :=
  snd (detect_vehicles 2 [1; 2; 3]%Q demo_system).

(** Lane 0 after two iterations: both frames of its recording were read, the
    counter is 2 and the source is exhausted. *)
Definition lane0_exhausted : TrafficSignalSystem :=
  snd (detect_vehicles 0 [1; 2]%Q demo_system).

End DemoRuns.

(** ** The rest of the module *)

Section Module.

Context `{Ext : Collaborators}.
Local Open Scope py_scope.

(** [vehicle_logs]: the value under ["detected_vehicles"] of the dictionary it
    returns, [[vehicle for lane in self.detected_vehicles for vehicle in lane]]. *)
Definition vehicle_logs : M (list Vehicle) :=
  lanes <- gets detected_vehicles ;;
  ret (concat lanes).

(** The four paths the module passes to the constructor. *)
Definition module_paths : list string :=
  [ "https://videos.pexels.com/video-files/854745/854745-hd_1280_720_50fps.mp4";
    "https://videos.pexels.com/video-files/854745/854745-hd_1280_720_50fps.mp4";
    "video.mp4";
    "video.mp4" ]%string.

(** [traffic_system = TrafficSignalSystem([...])] *)
Definition traffic_system (now : Q) : TrafficSignalSystem :=
  init module_paths now.

(** The sizes of the lists of the object. *)
Definition same_sizes (s s' : TrafficSignalSystem) : Prop :=
  length (vehicle_detectors s') = length (vehicle_detectors s) /\
  length (vehicle_counts s') = length (vehicle_counts s) /\
  length (average_speeds s') = length (average_speeds s) /\
  length (signal_states s') = length (signal_states s) /\
  length (frames s') = length (frames s) /\
  length (detected_vehicles s') = length (detected_vehicles s) /\
  length (caps s') = length (caps s).

(** What a step of lane [lane_idx]'s pipeline leaves to the other lanes. *)
Definition other_lanes_same (lane_idx : nat) (s s' : TrafficSignalSystem) : Prop :=
  forall other, other <> lane_idx ->
    lane_view other s' = lane_view other s /\
    caps s' !! other = caps s !! other /\
    vehicle_detectors s' !! other = vehicle_detectors s !! other.

(** A lane that has a frame in [s] has one in [s']. *)
Definition frames_kept (s s' : TrafficSignalSystem) : Prop :=
  forall lane_idx f, frames s !! lane_idx = Some (Some f) ->
    exists f', frames s' !! lane_idx = Some (Some f').

(** Everything the pipelines own is the same in [s] and [s']. *)
Definition same_lane_data (s s' : TrafficSignalSystem) : Prop :=
  frames s' = frames s /\
  vehicle_counts s' = vehicle_counts s /\
  average_speeds s' = average_speeds s /\
  detected_vehicles s' = detected_vehicles s /\
  caps s' = caps s /\
  vehicle_detectors s' = vehicle_detectors s.

(** What an iteration that does not run the detector leaves alone: all but
    the captures. *)
Definition same_but_caps (s s' : TrafficSignalSystem) : Prop :=
  frames s' = frames s /\
  vehicle_counts s' = vehicle_counts s /\
  average_speeds s' = average_speeds s /\
  detected_vehicles s' = detected_vehicles s /\
  vehicle_detectors s' = vehicle_detectors s /\
  same_schedule s s'.

(** The detector returns on every frame. *)
Definition detector_total : Prop :=
  forall tracker f ts, exists res tracker',
    process_frame tracker f ts = (Ok res, tracker').

End Module.

(** *** The same intersection with a detector that never chokes *)

Definition calm_detector (f : Scene) : result DetectionResult :=
  Ok {| number_of_vehicles_detected := Z.of_nat (length (in_view f));
        detected_vehicles_of := in_view f |}.

Definition calm : Collaborators :=
  file_backed Scene recordings calm_detector scene_bytes.

Definition calm_system : @TrafficSignalSystem calm := @init calm demo_paths 0%Q.

(** * Properties *)

#[local] Arguments Nat.modulo : simpl never.
#[local] Arguments Z.modulo : simpl never.
#[local] Arguments Z.div : simpl never.

Ltac unfold_ops :=
  unfold load, store, bind, gets, puts, lift, ret, raise, getitem, setitem in *.

Section MonadFacts.

Context `{Ext : Collaborators}.

Lemma Qgtb_lt (a b : Q) : Qgtb a b = true <-> (b < a)%Q.
Proof.
  unfold Qgtb. rewrite negb_true_iff, <- not_true_iff_false, Qle_bool_iff.
  split; [apply Qnot_le_lt | apply Qlt_not_le].
Qed.

Lemma bind_run {A B : Type} (m : M A) (k : A -> M B) (s s' : TrafficSignalSystem)
    (a : A) :
  m s = (Ok a, s') -> bind m k s = k a s'.
Proof. intros Hm. unfold bind. by rewrite Hm. Qed.

Lemma bind_raise {A B : Type} (m : M A) (k : A -> M B) (s s' : TrafficSignalSystem)
    (e : exn) :
  m s = (Raise e, s') -> bind m k s = (Raise e, s').
Proof. intros Hm. unfold bind. by rewrite Hm. Qed.

Lemma store_run {A : Type} (field : TrafficSignalSystem -> list A)
    (setter : list A -> TrafficSignalSystem -> TrafficSignalSystem)
    (i : nat) (v : A) (s : TrafficSignalSystem) :
  (i < length (field s))%nat ->
  store field setter i v s = (Ok tt, setter (<[i := v]> (field s)) s).
Proof.
  intros Hlt. unfold_ops. simpl. by destruct (decide _).
Qed.

Lemma store_raise {A : Type} (field : TrafficSignalSystem -> list A)
    (setter : list A -> TrafficSignalSystem -> TrafficSignalSystem)
    (i : nat) (v : A) (s : TrafficSignalSystem) :
  (length (field s) <= i)%nat ->
  store field setter i v s = (Raise IndexError, s).
Proof.
  intros Hge. unfold_ops. simpl. destruct (decide _); [lia | reflexivity].
Qed.

Lemma load_run {A : Type} (field : TrafficSignalSystem -> list A) (i : nat) (x : A)
    (s : TrafficSignalSystem) :
  field s !! i = Some x -> load field i s = (Ok x, s).
Proof. intros Hx. unfold_ops. simpl. by rewrite Hx. Qed.

Lemma load_raise {A : Type} (field : TrafficSignalSystem -> list A) (i : nat)
    (s : TrafficSignalSystem) :
  field s !! i = None -> load field i s = (Raise IndexError, s).
Proof. intros Hx. unfold_ops. simpl. by rewrite Hx. Qed.

End MonadFacts.

Section SchedulerFacts.

Context `{Ext : Collaborators}.

Lemma scheduler_wf_count (s : TrafficSignalSystem) :
  scheduler_wf s -> exists count, vehicle_counts s !! current_green s = Some count.
Proof.
  intros (Hc & _ & Hg & _).
  apply lookup_lt_is_Some. lia.
Qed.

(** One check of the scheduler, on a state it can be in: it never raises, and
    it either leaves the object alone or performs the whole transition. *)
Lemma manage_signals_tick_run (t : Q) (s : TrafficSignalSystem) (count : Z) :
  scheduler_wf s ->
  vehicle_counts s !! current_green s = Some count ->
  manage_signals_tick t s =
  (Ok tt,
   if Qgtb (t - last_signal_change s) (inject_Z (get_green_time s count))
   then advanced t s else s).
Proof.
  intros (Hc & Hs & Hg & _) Hcount.
  unfold manage_signals_tick. unfold_ops. simpl.
  rewrite Hcount.
  destruct (Qgtb _ _); [|reflexivity].
  simpl. destruct (decide _) as [_|Hn]; [|lia]. simpl.
  rewrite length_insert.
  destruct (decide _) as [_|Hn].
  - reflexivity.
  - exfalso. apply Hn. rewrite Hs. apply Nat.mod_upper_bound. lia.
Qed.

Lemma scheduler_wf_init (paths : list string) (now : Q) :
  scheduler_wf (init paths now).
Proof. repeat split; simpl; lia. Qed.

Lemma scheduler_wf_advanced (t : Q) (s : TrafficSignalSystem) :
  scheduler_wf s -> scheduler_wf (advanced t s).
Proof.
  intros (Hc & Hs & Hg & Hmin & Hmax).
  repeat split; simpl; try assumption.
  - by rewrite !length_insert.
  - apply Nat.mod_upper_bound. lia.
Qed.

End SchedulerFacts.

Section Preserves.

Context `{Ext : Collaborators}.


Variable R : TrafficSignalSystem -> TrafficSignalSystem -> Prop.
Hypothesis R_refl : forall s, R s s.
Hypothesis R_trans : forall s1 s2 s3, R s1 s2 -> R s2 s3 -> R s1 s3.

Lemma preserves_ret {A : Type} (a : A) : preserves R (ret a).
Proof. intros s. apply R_refl. Qed.

Lemma preserves_raise {A : Type} (e : exn) : preserves R (@raise _ A e).
Proof. intros s. apply R_refl. Qed.

Lemma preserves_gets {A : Type} (field : TrafficSignalSystem -> A) :
  preserves R (gets field).
Proof. intros s. apply R_refl. Qed.

Lemma preserves_lift {A : Type} (r : result A) : preserves R (lift r).
Proof. intros s. apply R_refl. Qed.

Lemma preserves_bind {A B : Type} (m : M A) (k : A -> M B) :
  preserves R m -> (forall a, preserves R (k a)) -> preserves R (bind m k).
Proof.
  intros Hm Hk s. unfold bind.
  specialize (Hm s). destruct (m s) as [[a|e] s']; simpl in *.
  - eapply R_trans; [exact Hm | apply Hk].
  - exact Hm.
Qed.

Lemma preserves_load {A : Type} (field : TrafficSignalSystem -> list A) (i : nat) :
  preserves R (load field i).
Proof.
  apply preserves_bind; [apply preserves_gets | intros; apply preserves_lift].
Qed.

Lemma preserves_store {A : Type} (field : TrafficSignalSystem -> list A)
    (setter : list A -> TrafficSignalSystem -> TrafficSignalSystem)
    (i : nat) (v : A) :
  (forall s l, length l = length (field s) -> R s (setter l s)) ->
  preserves R (store field setter i v).
Proof.
  intros Hset s. unfold store, bind, gets, lift, puts, setitem. simpl.
  destruct (decide _); simpl; [|apply R_refl].
  apply Hset. apply length_insert.
Qed.

End Preserves.

Ltac preserves_step :=
  first
    [ by apply preserves_ret | by apply preserves_raise | by apply preserves_gets
    | by apply preserves_lift | by apply preserves_load
    | lazymatch goal with
      | |- preserves _ (store _ _ _ _) => apply preserves_store; [assumption | ]
      | |- preserves _ (bind _ _) => apply preserves_bind; [assumption | | intros ?]
      end
    | match goal with
      | |- preserves _ (let (_, _) := ?p in _) => destruct p
      | |- preserves _ (match ?o with Some _ => _ | None => _ end) => destruct o
      | |- preserves _ (if ?b then _ else _) => destruct b
      end ].

Section Frames.

Context `{Ext : Collaborators}.

Lemma same_schedule_refl (s : TrafficSignalSystem) : same_schedule s s.
Proof. by repeat split. Qed.

Lemma same_schedule_trans (s1 s2 s3 : TrafficSignalSystem) :
  same_schedule s1 s2 -> same_schedule s2 s3 -> same_schedule s1 s3.
Proof.
  intros (?&?&?&?&?&?) (?&?&?&?&?&?). repeat split; congruence.
Qed.

Lemma process_lane_result_schedule (res : DetectionResult) (lane_idx : nat) :
  preserves same_schedule (process_lane_result res lane_idx).
Proof.
  pose proof same_schedule_refl. pose proof same_schedule_trans.
  unfold process_lane_result.
  repeat preserves_step; intros s l Hl; repeat split; simpl; congruence.
Qed.

Lemma detect_vehicles_iter_schedule (lane_idx : nat) (ts : Timestamp) (fc : Z) :
  preserves same_schedule (detect_vehicles_iter lane_idx ts fc).
Proof.
  pose proof same_schedule_refl. pose proof same_schedule_trans.
  unfold detect_vehicles_iter, process_lane_result.
  repeat preserves_step; intros s l Hl; repeat split; simpl; congruence.
Qed.

Lemma generate_frame_iter_pure (lane_idx : nat) :
  preserves eq (generate_frame_iter lane_idx).
Proof.
  assert (forall s : TrafficSignalSystem, s = s) by reflexivity.
  assert (forall s1 s2 s3 : TrafficSignalSystem, s1 = s2 -> s2 = s3 -> s1 = s3)
    by (intros; congruence).
  unfold generate_frame_iter.
  repeat preserves_step.
Qed.

End Frames.

Section SchedulerClaims.

Context `{Ext : Collaborators}.

Lemma same_schedule_wf (s s' : TrafficSignalSystem) :
  same_schedule s s' -> scheduler_wf s -> scheduler_wf s'.
Proof.
  intros (Hsig & Hcur & _ & Hmin & Hmax & Hlen) (Hc & Hs & Hg & Hmi & Hma).
  repeat split; congruence.
Qed.

Lemma step_scheduler_wf (e : event) (s : TrafficSignalSystem) :
  scheduler_wf s -> scheduler_wf (step e s).
Proof.
  intros Hwf. destruct e as [t | lane ts fc | lane]; simpl.
  - destruct (scheduler_wf_count s Hwf) as [count Hcount].
    rewrite (manage_signals_tick_run t s count Hwf Hcount). simpl.
    destruct (Qgtb _ _); [by apply scheduler_wf_advanced | assumption].
  - eapply same_schedule_wf; [apply detect_vehicles_iter_schedule | assumption].
  - by rewrite <- (generate_frame_iter_pure lane s).
Qed.

Lemma run_scheduler_wf (evs : list event) (s : TrafficSignalSystem) :
  scheduler_wf s -> scheduler_wf (run evs s).
Proof.
  revert s. induction evs as [|e evs IH]; intros s Hwf; [assumption|].
  simpl. apply IH. by apply step_scheduler_wf.
Qed.

Lemma reachable_scheduler_wf (paths : list string) (now : Q) (evs : list event) :
  scheduler_wf (run evs (init paths now)).
Proof. apply run_scheduler_wf, scheduler_wf_init. Qed.

(** A step that is not a transition of the scheduler leaves the lights and
    the green lane as they are. *)
Lemma step_cases (e : event) (s : TrafficSignalSystem) :
  scheduler_wf s ->
  (signal_states (step e s) = signal_states s /\
   current_green (step e s) = current_green s /\
   last_signal_change (step e s) = last_signal_change s) \/
  (exists t, e = SchedulerTick t /\ step e s = advanced t s).
Proof.
  intros Hwf. destruct e as [t | lane ts fc | lane]; simpl.
  - destruct (scheduler_wf_count s Hwf) as [count Hcount].
    rewrite (manage_signals_tick_run t s count Hwf Hcount). simpl.
    destruct (Qgtb _ _); [right; by exists t | by left].
  - left. destruct (detect_vehicles_iter_schedule lane ts fc s) as (?&?&?&_).
    by repeat split.
  - left. by rewrite <- (generate_frame_iter_pure lane s).
Qed.

(** *** One lane green

    A transition takes "lane [current_green] green, the others red" to the
    same for the next lane, and it establishes it from the all-red lights the
    constructor leaves. *)
Lemma advanced_only_green (t : Q) (s : TrafficSignalSystem) :
  scheduler_wf s ->
  only_green (current_green s) s \/ signal_states s = py_repeat "red"%string 4 ->
  only_green (current_green (advanced t s)) (advanced t s).
Proof.
  intros (_ & Hs & Hg & _) Hlights.
  assert (Hnext : (((current_green s + 1) mod 4) < 4)%nat)
    by (apply Nat.mod_upper_bound; lia).
  unfold only_green, advanced. simpl. rewrite !length_insert, Hs.
  split; [|assumption]. f_equal.
  destruct Hlights as [[Hone _] | Hred].
  - rewrite Hs in Hone. rewrite Hone, list_insert_insert_eq.
    apply insert_replicate.
  - rewrite Hred. apply insert_replicate.
Qed.

Lemma step_only_green (e : event) (s : TrafficSignalSystem) :
  scheduler_wf s ->
  only_green (current_green s) s ->
  only_green (current_green (step e s)) (step e s).
Proof.
  intros Hwf Hone.
  destruct (step_cases e s Hwf) as [(Hsig & Hcur & _) | (t & _ & ->)].
  - unfold only_green in *. by rewrite Hsig, Hcur.
  - apply advanced_only_green; auto.
Qed.

Lemma only_green_lanes (i : nat) (s : TrafficSignalSystem) :
  scheduler_wf s -> only_green i s -> green_lanes s = [i].
Proof.
  intros (_ & Hs & _) [Hone Hi]. unfold green_lanes.
  rewrite Hs in Hone, Hi. rewrite Hs, Hone.
  destruct i as [|[|[|[|i]]]]; try reflexivity. lia.
Qed.

(** From the constructor on, the lights are either still all red, as the
    constructor left them, or exactly the current lane is green. *)
Lemma lights_invariant (paths : list string) (now : Q) (evs : list event) :
  let s := run evs (init paths now) in
  (signal_states s = py_repeat "red"%string 4 /\ current_green s = 0%nat) \/
  only_green (current_green s) s.
Proof.
  simpl.
  assert (Hrun : forall evs s,
             scheduler_wf s ->
             (signal_states s = py_repeat "red"%string 4 /\ current_green s = 0%nat) \/
             only_green (current_green s) s ->
             (signal_states (run evs s) = py_repeat "red"%string 4 /\
              current_green (run evs s) = 0%nat) \/
             only_green (current_green (run evs s)) (run evs s)).
  { clear evs. induction evs as [|e evs IH]; intros s Hwf Hlights; [assumption|].
    simpl. apply IH; [by apply step_scheduler_wf|].
    destruct (step_cases e s Hwf) as [(Hsig & Hcur & _) | (t & _ & ->)].
    - destruct Hlights as [[Hred Hzero] | Hone].
      + left. by rewrite Hsig, Hcur.
      + right. unfold only_green in *. by rewrite Hsig, Hcur.
    - right. apply advanced_only_green; [assumption|].
      destruct Hlights as [[Hred _] | Hone]; [by right | by left]. }
  apply Hrun; [apply scheduler_wf_init | by left].
Qed.

(** C1 (the constructor): the object [__init__] builds has [current_green = 0]
    and every light red, lane 0 included: no lane is green, and [signal_data]
    reports "red" for all four lanes. *)
Theorem init_shows_no_green (paths : list string) (now : Q) :
  let s := init paths now in
  current_green s = 0%nat /\
  signal_states s = ["red"; "red"; "red"; "red"]%string /\
  signal_states s !! 0%nat = Some "red"%string /\
  green_lanes s = [] /\
  fst (signal_data s) =
    Ok [ {| lane := 1; vehicle_count := 0; signal := "red" |};
         {| lane := 2; vehicle_count := 0; signal := "red" |};
         {| lane := 3; vehicle_count := 0; signal := "red" |};
         {| lane := 4; vehicle_count := 0; signal := "red" |} ].
Proof. by split_and!. Qed.

(** C3: on every state the system reaches, [get_green_time] is 10 below 5
    vehicles, 35 (the integer half of 10 + 60) from 5 to 14, and 60 from 15 on;
    it is monotone non-decreasing, and its values at 4, 5, 14 and 15 are 10,
    35, 35 and 60. *)
Theorem get_green_time_tiers (paths : list string) (now : Q) (evs : list event) :
  let s := run evs (init paths now) in
  (forall count, count < 5 ->
     get_green_time s count = min_green_time s /\ min_green_time s = 10) /\
  (forall count, 5 <= count < 15 ->
     get_green_time s count = (min_green_time s + max_green_time s) / 2 /\
     (min_green_time s + max_green_time s) / 2 = 35) /\
  (forall count, 15 <= count ->
     get_green_time s count = max_green_time s /\ max_green_time s = 60) /\
  (forall c1 c2, c1 <= c2 -> get_green_time s c1 <= get_green_time s c2) /\
  get_green_time s 4 = 10 /\ get_green_time s 5 = 35 /\
  get_green_time s 14 = 35 /\ get_green_time s 15 = 60.
Proof.
  intros s.
  destruct (reachable_scheduler_wf paths now evs) as (_ & _ & _ & Hmin & Hmax).
  fold s in Hmin, Hmax.
  assert (Hmid : (min_green_time s + max_green_time s) / 2 = 35)
    by (rewrite Hmin, Hmax; reflexivity).
  assert (Hgt : forall c, get_green_time s c =
                          if c <? 5 then 10 else if c <? 15 then 35 else 60).
  { intros c. unfold get_green_time.
    rewrite (Z.add_comm (max_green_time s)), Hmid, Hmin, Hmax. reflexivity. }
  repeat split; try (rewrite Hgt; reflexivity); try assumption.
  - rewrite Hgt, Hmin. destruct (Z.ltb_spec count 5); [reflexivity | lia].
  - rewrite Hgt, Hmid. destruct (Z.ltb_spec count 5); [lia|].
    destruct (Z.ltb_spec count 15); [reflexivity | lia].
  - rewrite Hgt, Hmax. destruct (Z.ltb_spec count 5); [lia|].
    destruct (Z.ltb_spec count 15); [lia | reflexivity].
  - intros c1 c2 Hle. rewrite !Hgt.
    destruct (Z.ltb_spec c1 5), (Z.ltb_spec c2 5),
             (Z.ltb_spec c1 15), (Z.ltb_spec c2 15); lia.
Qed.

(** C4: on every state the system reaches, a step of any thread either leaves
    the green lane and the lights as they are, or is a check of the scheduler
    that turns the current lane [i] red and lane [(i + 1) mod 4] green and
    makes that lane the current one; which lane comes next does not depend on
    any vehicle count. *)
Theorem green_moves_round_robin (paths : list string) (now : Q)
    (evs : list event) (e : event) :
  let s := run evs (init paths now) in
  let i := current_green s in
  (current_green (step e s) = i /\ signal_states (step e s) = signal_states s) \/
  (exists t, e = SchedulerTick t /\
     current_green (step e s) = ((i + 1) mod 4)%nat /\
     signal_states (step e s) !! i = Some "red"%string /\
     signal_states (step e s) !! ((i + 1) mod 4)%nat = Some "green"%string /\
     forall j, j <> i -> j <> ((i + 1) mod 4)%nat ->
       signal_states (step e s) !! j = signal_states s !! j).
Proof.
  intros s i.
  pose proof (reachable_scheduler_wf paths now evs) as Hwf. fold s in Hwf.
  destruct (step_cases e s Hwf) as [(Hsig & Hcur & _) | (t & -> & Hstep)].
  - left. by split.
  - right. exists t. split; [reflexivity|].
    destruct Hwf as (_ & Hs & Hg & _). fold i in Hg.
    assert (Hnext : (((i + 1) mod 4) < 4)%nat) by (apply Nat.mod_upper_bound; lia).
    assert (Hne : ((i + 1) mod 4)%nat <> i).
    { destruct i as [|[|[|[|i]]]]; try discriminate. lia. }
    rewrite Hstep. unfold advanced. simpl. fold i.
    repeat split.
    + rewrite list_lookup_insert_ne by exact Hne.
      apply list_lookup_insert_eq. lia.
    + apply list_lookup_insert_eq. rewrite length_insert. lia.
    + intros j Hj1 Hj2. by rewrite !list_lookup_insert_ne.
Qed.

End SchedulerClaims.

Section DwellTime.

Context `{Ext : Collaborators}.

Lemma process_lane_result_count (res : DetectionResult) (lane_idx : nat)
    (s : TrafficSignalSystem) :
  (lane_idx < length (vehicle_counts s))%nat ->
  vehicle_counts (snd (process_lane_result res lane_idx s)) !! lane_idx
  = Some (number_of_vehicles_detected res).
Proof.
  intros Hlt. unfold process_lane_result.
  erewrite bind_run by (by apply store_run).
  match goal with
  | |- vehicle_counts (snd (?m ?s0)) !! _ = _ =>
      assert (Hkeep : preserves (fun a b => vehicle_counts b = vehicle_counts a) m)
  end.
  { assert (forall a : TrafficSignalSystem, vehicle_counts a = vehicle_counts a)
      by reflexivity.
    assert (forall a b c : TrafficSignalSystem,
               vehicle_counts b = vehicle_counts a ->
               vehicle_counts c = vehicle_counts b ->
               vehicle_counts c = vehicle_counts a) by (intros; congruence).
    repeat preserves_step; intros; reflexivity. }
  rewrite Hkeep. simpl. by apply list_lookup_insert_eq.
Qed.

(** C2 (as the code has it): at every check the scheduler compares the time
    since the phase began with [get_green_time] of the green lane's vehicle
    count as it stands at that check; the check moves the green lane on
    exactly when the elapsed time is greater, and otherwise changes nothing.
    A count published during the phase replaces the earlier one for the checks
    that follow and leaves the start of the phase as it was. *)
Theorem check_uses_current_count (s : TrafficSignalSystem) (t : Q) (count : Z) :
  scheduler_wf s ->
  vehicle_counts s !! current_green s = Some count ->
  let s' := step (SchedulerTick t) s in
  ((inject_Z (get_green_time s count) < t - last_signal_change s)%Q ->
     s' = advanced t s /\ last_signal_change s' = t) /\
  (~ (inject_Z (get_green_time s count) < t - last_signal_change s)%Q -> s' = s) /\
  (forall res : DetectionResult,
     let published := snd (process_lane_result res (current_green s) s) in
     vehicle_counts published !! current_green published
       = Some (number_of_vehicles_detected res) /\
     last_signal_change published = last_signal_change s /\
     current_green published = current_green s).
Proof.
  intros Hwf Hcount s'. subst s'. simpl.
  rewrite (manage_signals_tick_run t s count Hwf Hcount). simpl.
  split_and!.
  - intros Hlt. apply Qgtb_lt in Hlt. by rewrite Hlt.
  - intros Hn. destruct (Qgtb _ _) eqn:Hb; [|reflexivity].
    apply Qgtb_lt in Hb. contradiction.
  - intros res. split_and!.
    + destruct (process_lane_result_schedule res (current_green s) s) as (_ & -> & _).
      apply process_lane_result_count. destruct Hwf as (-> & _ & ? & _). assumption.
    + by destruct (process_lane_result_schedule res (current_green s) s)
        as (_ & _ & -> & _).
    + by destruct (process_lane_result_schedule res (current_green s) s)
        as (_ & -> & _).
Qed.

End DwellTime.

Section DwellTimeDemo.

#[local] Existing Instance demo.

(** C2 (as stated) fails: lane 1 enters its phase with count 0 in both runs,
    the checks are the same, and the phase lasts 11 s when nothing is
    published but 61 s when a count of 20 arrives 4 s into it. *)
Lemma duration_changes_mid_phase :
  current_green lane1_green = 1%nat /\
  vehicle_counts lane1_green !! 1%nat = Some 0 /\
  last_signal_change lane1_green = 11%Q /\
  checks quiet_phase = checks busy_phase /\
  phase_end quiet_phase lane1_green = Some 22%Q /\
  phase_end busy_phase lane1_green = Some 72%Q /\
  ~ duration_fixed_at_entry lane1_green.
Proof.
  repeat split; try (vm_compute; reflexivity).
  intros Hfixed.
  specialize (Hfixed quiet_phase busy_phase eq_refl).
  vm_compute in Hfixed. discriminate Hfixed.
Qed.

Lemma check_uses_current_count_witness :
  let s := run (ticks_from 12 4 ++ [PipelineIter 1 (31 # 2)%Q 0]) lane1_green in
  step (SchedulerTick 22%Q) s = s /\
  step (SchedulerTick 72%Q) s = advanced 72%Q s.
Proof.
  intros s.
  assert (Hwf : scheduler_wf s).
  { apply run_scheduler_wf, run_scheduler_wf, scheduler_wf_init. }
  destruct (check_uses_current_count s 22%Q 20 Hwf eq_refl) as (_ & Hstay & _).
  destruct (check_uses_current_count s 72%Q 20 Hwf eq_refl) as (Hgo & _).
  split.
  - apply Hstay. vm_compute. discriminate.
  - apply Hgo. vm_compute. reflexivity.
Defined.

End DwellTimeDemo.

Section LaneResult.

Context `{Ext : Collaborators}.

Lemma reported_speeds_filter (vs : list Vehicle) :
  reported_speeds vs = map speed_or_zero (List.filter reports_speed vs).
Proof.
  unfold reported_speeds.
  induction vs as [|v vs IH]; [reflexivity|].
  simpl. unfold reports_speed at 1.
  destruct (kph (speed_info v)) eqn:Hk; simpl.
  - unfold speed_or_zero at 1. rewrite Hk. f_equal. exact IH.
  - exact IH.
Qed.

Lemma fold_left_Qplus_acc (l : list Q) (a : Q) :
  (fold_left Qplus l a == a + fold_right Qplus 0 l)%Q.
Proof.
  revert a. induction l as [|q l IH]; intros a; simpl.
  - by rewrite Qplus_0_r.
  - rewrite IH. by rewrite Qplus_assoc.
Qed.

Lemma np_mean_is_mean (vs : list Vehicle) :
  (np_mean (reported_speeds vs) == mean_reported_speed vs)%Q.
Proof.
  unfold np_mean, mean_reported_speed.
  rewrite reported_speeds_filter, length_map.
  rewrite fold_left_Qplus_acc, Qplus_0_l.
  apply Qdiv_comp; [|reflexivity].
  induction (List.filter reports_speed vs) as [|v l IH]; [reflexivity|].
  simpl. by rewrite IH.
Qed.

Lemma process_lane_result_run (res : DetectionResult) (lane_idx : nat)
    (s : TrafficSignalSystem) :
  (lane_idx < length (vehicle_counts s))%nat ->
  (lane_idx < length (average_speeds s))%nat ->
  (lane_idx < length (detected_vehicles s))%nat ->
  process_lane_result res lane_idx s =
  (Ok tt,
   set_detected_vehicles
     (<[lane_idx := detected_vehicles_of res]> (detected_vehicles s))
     (set_average_speeds
        (<[lane_idx := average_of (reported_speeds (detected_vehicles_of res))]>
           (average_speeds s))
        (set_vehicle_counts
           (<[lane_idx := number_of_vehicles_detected res]> (vehicle_counts s)) s))).
Proof.
  intros Hc Ha Hd. unfold process_lane_result.
  erewrite bind_run by (by apply store_run).
  erewrite bind_run by (by apply store_run).
  by rewrite store_run.
Qed.


End LaneResult.

Section LaneResultDemo.

#[local] Existing Instance demo.


End LaneResultDemo.

Section Publication.

Context `{Ext : Collaborators}.

Lemma run_writes_publish (frame : Frame) (res : DetectionResult) (lane_idx : nat)
    (s : TrafficSignalSystem) :
  run_writes (publish_writes frame res lane_idx) s =
  bind (store frames set_frames lane_idx (Some frame))
       (fun _ => process_lane_result res lane_idx) s.
Proof.
  unfold publish_writes, process_lane_result. simpl. unfold bind, ret.
  repeat match goal with
         | |- context [match ?m ?x with _ => _ end] =>
             lazymatch m with store _ _ _ _ => destruct (m x) as [[[]|?] ?] end
         end; reflexivity.
Qed.

(** C5 (as the code has it): a publication is four stores in a row, to
    [frames], [vehicle_counts], [average_speeds] and [detected_vehicles]; a
    reader that runs after the first [k] of them finds the first [k] of the
    four fields from the new observation and the others from the previous one.
    The lane is of one observation again only after the fourth store; other
    lanes are not touched. *)
Theorem publication_is_four_writes (frame : Frame) (res : DetectionResult)
    (lane_idx : nat) (s : TrafficSignalSystem) :
  pipeline_wf lane_idx s ->
  let old := lane_view lane_idx s in
  let after k := state_after_writes k frame res lane_idx s in
  let avg := average_of (reported_speeds (detected_vehicles_of res)) in
  lane_view lane_idx (after 0%nat) = old /\
  lane_view lane_idx (after 1%nat) =
    {| view_frame := Some (Some frame);
       view_vehicle_count := view_vehicle_count old;
       view_average_speed := view_average_speed old;
       view_vehicles := view_vehicles old |} /\
  lane_view lane_idx (after 2%nat) =
    {| view_frame := Some (Some frame);
       view_vehicle_count := Some (number_of_vehicles_detected res);
       view_average_speed := view_average_speed old;
       view_vehicles := view_vehicles old |} /\
  lane_view lane_idx (after 3%nat) =
    {| view_frame := Some (Some frame);
       view_vehicle_count := Some (number_of_vehicles_detected res);
       view_average_speed := Some avg;
       view_vehicles := view_vehicles old |} /\
  lane_view lane_idx (after 4%nat) =
    {| view_frame := Some (Some frame);
       view_vehicle_count := Some (number_of_vehicles_detected res);
       view_average_speed := Some avg;
       view_vehicles := Some (detected_vehicles_of res) |} /\
  after 4%nat =
    snd (bind (store frames set_frames lane_idx (Some frame))
              (fun _ => process_lane_result res lane_idx) s) /\
  (forall k other, other <> lane_idx ->
     lane_view other (after k) = lane_view other s).
Proof.
  intros (_ & _ & Hf & Hc & Ha & Hd) old after avg.
  assert (H1 : after 1%nat = set_frames (<[lane_idx := Some frame]> (frames s)) s).
  { unfold after, state_after_writes. simpl.
    erewrite bind_run by (by apply store_run). reflexivity. }
  assert (H2 : after 2%nat =
               set_vehicle_counts
                 (<[lane_idx := number_of_vehicles_detected res]> (vehicle_counts s))
                 (after 1%nat)).
  { rewrite H1. unfold after, state_after_writes. simpl.
    erewrite bind_run by (by apply store_run).
    erewrite bind_run by (by apply store_run). reflexivity. }
  assert (H3 : after 3%nat =
               set_average_speeds (<[lane_idx := avg]> (average_speeds s))
                                  (after 2%nat)).
  { rewrite H2, H1. unfold after, state_after_writes. simpl.
    erewrite bind_run by (by apply store_run).
    erewrite bind_run by (by apply store_run).
    erewrite bind_run by (by apply store_run). reflexivity. }
  assert (H4 : after 4%nat =
               set_detected_vehicles
                 (<[lane_idx := detected_vehicles_of res]> (detected_vehicles s))
                 (after 3%nat)).
  { rewrite H3, H2, H1. unfold after, state_after_writes. simpl.
    erewrite bind_run by (by apply store_run).
    erewrite bind_run by (by apply store_run).
    erewrite bind_run by (by apply store_run).
    erewrite bind_run by (by apply store_run). reflexivity. }
  assert (Hk : forall k, (4 <= k)%nat -> after k = after 4%nat).
  { intros k Hk. unfold after, state_after_writes.
    rewrite !firstn_all2; simpl; try lia. reflexivity. }
  split_and!.
  - reflexivity.
  - rewrite H1. unfold lane_view, old. simpl. f_equal.
    by apply list_lookup_insert_eq.
  - rewrite H2, H1. unfold lane_view, old. simpl. f_equal;
      by apply list_lookup_insert_eq.
  - rewrite H3, H2, H1. unfold lane_view, old. simpl. f_equal;
      by apply list_lookup_insert_eq.
  - rewrite H4, H3, H2, H1. unfold lane_view. simpl. f_equal;
      by apply list_lookup_insert_eq.
  - unfold after at 1, state_after_writes.
    rewrite <- run_writes_publish. reflexivity.
  - intros k other Hne.
    assert (Hcases : (k = 0 \/ k = 1 \/ k = 2 \/ k = 3 \/ 4 <= k)%nat) by lia.
    destruct Hcases as [-> | [-> | [-> | [-> | Hge]]]];
      rewrite ?(Hk k Hge), ?H4, ?H3, ?H2, ?H1; try reflexivity;
      unfold lane_view; simpl; f_equal;
      by rewrite ?list_lookup_insert_ne.
Qed.

End Publication.

Section PublicationDemo.

#[local] Existing Instance demo.

(** C5 (as stated) fails: the fifth iteration of lane 0's pipeline publishes
    the observation of the empty road over the one of three cars; a reader
    that runs after the second store finds the new frame and the new count 0
    next to the three vehicle records and the average speed of the previous
    observation. *)
Lemma reader_sees_torn_lane :
  scripted_detector empty_road = Ok next_observation /\
  detect_vehicles 0 [1; 2; 3; 4; 5]%Q demo_system =
    (Ok 4, state_after_writes 4 empty_road next_observation 0 lane0_fifth_read) /\
  lane_view 0 lane0_fifth_read =
    {| view_frame := Some (Some three_cars);
       view_vehicle_count := Some 3;
       view_average_speed := Some (80 # 2)%Q;
       view_vehicles := Some (in_view three_cars) |} /\
  lane_view 0 (state_after_writes 2 empty_road next_observation 0 lane0_fifth_read) =
    {| view_frame := Some (Some empty_road);
       view_vehicle_count := Some 0;
       view_average_speed := Some (80 # 2)%Q;
       view_vehicles := Some (in_view three_cars) |} /\
  ~ publication_atomic empty_road next_observation 0 lane0_fifth_read.
Proof.
  split_and!; try (vm_compute; reflexivity).
  intros Hatomic. destruct (Hatomic 2%nat) as [Hold | Hnew].
  - vm_compute in Hold. discriminate Hold.
  - vm_compute in Hnew. discriminate Hnew.
Qed.

Lemma publication_is_four_writes_witness :
  lane_view 0 (state_after_writes 4 empty_road next_observation 0 lane0_fifth_read) =
    {| view_frame := Some (Some empty_road);
       view_vehicle_count := Some 0;
       view_average_speed := Some 0%Q;
       view_vehicles := Some [] |}.
Proof.
  assert (Hwf : pipeline_wf 0 lane0_fifth_read) by (vm_compute; repeat split; lia).
  exact (proj1 (proj2 (proj2 (proj2 (proj2
    (publication_is_four_writes empty_road next_observation 0 lane0_fifth_read Hwf)))))).
Defined.

End PublicationDemo.

Section Stream.

Context `{Ext : Collaborators}.

Lemma generate_frame_iter_yield (lane_idx : nat) (f : Frame)
    (s : TrafficSignalSystem) :
  frames s !! lane_idx = Some (Some f) ->
  generate_frame_iter lane_idx s =
  (Ok (Yield (part_header ++ imencode_jpg (frame_copy f) ++ CRLF)), s).
Proof.
  intros Hf. unfold generate_frame_iter.
  erewrite bind_run by (by apply load_run). simpl.
  erewrite bind_run by (by apply load_run). reflexivity.
Qed.

Lemma generate_frame_iter_spin (lane_idx : nat) (s : TrafficSignalSystem) :
  frames s !! lane_idx = Some None ->
  generate_frame_iter lane_idx s = (Ok Spin, s).
Proof.
  intros Hf. unfold generate_frame_iter.
  erewrite bind_run by (by apply load_run). reflexivity.
Qed.

Lemma generate_frame_iter_out_of_range (lane_idx : nat) (s : TrafficSignalSystem) :
  (length (frames s) <= lane_idx)%nat ->
  generate_frame_iter lane_idx s = (Raise IndexError, s).
Proof.
  intros Hge. unfold generate_frame_iter.
  erewrite bind_raise; [reflexivity|].
  apply load_raise. by apply lookup_ge_None.
Qed.

(** C10: one turn of the generator's loop never changes the system object;
    when the lane has a frame, the turn yields the multipart chunk whose body
    is the JPEG encoding of a copy of that frame, and every field of the
    object is as before. *)
Theorem generate_frame_has_no_effect (lane_idx : nat) (s : TrafficSignalSystem) :
  snd (generate_frame_iter lane_idx s) = s /\
  (forall f, frames s !! lane_idx = Some (Some f) ->
     let s' := snd (generate_frame_iter lane_idx s) in
     fst (generate_frame_iter lane_idx s)
       = Ok (Yield (part_header ++ imencode_jpg (frame_copy f) ++ CRLF)) /\
     frames s' = frames s /\
     vehicle_counts s' = vehicle_counts s /\
     average_speeds s' = average_speeds s /\
     signal_states s' = signal_states s /\
     detected_vehicles s' = detected_vehicles s /\
     current_green s' = current_green s /\
     last_signal_change s' = last_signal_change s).
Proof.
  split.
  - symmetry. apply generate_frame_iter_pure.
  - intros f Hf s'. subst s'.
    rewrite (generate_frame_iter_yield lane_idx f s Hf). by split_and!.
Qed.

Lemma generator_next_yield (fuel lane_idx : nat) (f : Frame)
    (s : TrafficSignalSystem) :
  frames s !! lane_idx = Some (Some f) ->
  generator_next (S fuel) lane_idx s =
  (Ok (Some (part_header ++ imencode_jpg (frame_copy f) ++ CRLF)), s).
Proof.
  intros Hf. simpl.
  erewrite bind_run by (by apply generate_frame_iter_yield). reflexivity.
Qed.


End Stream.

Section StreamDemo.

#[local] Existing Instance demo.



Lemma generate_frame_has_no_effect_witness :
  fst (generate_frame_iter 0 lane0_published)
    = Ok (Yield (part_header ++ scene_bytes three_cars ++ CRLF)).
Proof.
  destruct (generate_frame_has_no_effect 0 lane0_published) as (_ & Hyield).
  destruct (Hyield three_cars eq_refl) as (Hchunk & _).
  exact Hchunk.
Defined.

End StreamDemo.

Section Ingestion.

Context `{Ext : Collaborators}.

Lemma detect_vehicles_iter_unreadable (lane_idx : nat) (ts : Timestamp) (fc : Z)
    (s : TrafficSignalSystem) (cap cap' : VideoCapture) :
  caps s !! lane_idx = Some cap ->
  cap_read cap = (None, cap') ->
  detect_vehicles_iter lane_idx ts fc s = (Ok fc, rewound lane_idx cap' s).
Proof.
  intros Hcap Hread.
  assert (Hlt : (lane_idx < length (caps s))%nat) by (by eapply lookup_lt_Some).
  unfold detect_vehicles_iter.
  erewrite bind_run by (by apply load_run). rewrite Hread.
  erewrite bind_run by (by apply store_run).
  erewrite bind_run
    by (apply load_run; simpl; by apply list_lookup_insert_eq).
  erewrite bind_run by (apply store_run; simpl; by rewrite length_insert).
  unfold ret, rewound. simpl. by rewrite list_insert_insert_eq.
Qed.

Lemma detect_vehicles_iter_skipped (lane_idx : nat) (ts : Timestamp) (fc : Z)
    (s : TrafficSignalSystem) (cap cap' : VideoCapture) (f : Frame) :
  caps s !! lane_idx = Some cap ->
  cap_read cap = (Some f, cap') ->
  fc mod frame_skip <> 0 ->
  detect_vehicles_iter lane_idx ts fc s =
  (Ok (fc + 1), set_caps (<[lane_idx := cap']> (caps s)) s).
Proof.
  intros Hcap Hread Hskip.
  assert (Hlt : (lane_idx < length (caps s))%nat) by (by eapply lookup_lt_Some).
  unfold detect_vehicles_iter.
  erewrite bind_run by (by apply load_run). rewrite Hread.
  erewrite bind_run by (by apply store_run).
  destruct (Z.eqb_spec (fc mod frame_skip) 0) as [Heq|_]; [contradiction|].
  reflexivity.
Qed.

Lemma detect_vehicles_iter_detector_raises (lane_idx : nat) (ts : Timestamp)
    (fc : Z) (s : TrafficSignalSystem) (cap cap' : VideoCapture) (f : Frame)
    (tracker tracker' : VehicleDetectionTracker) (e : exn) :
  caps s !! lane_idx = Some cap ->
  cap_read cap = (Some f, cap') ->
  fc mod frame_skip = 0 ->
  vehicle_detectors s !! lane_idx = Some tracker ->
  process_frame tracker f ts = (Raise e, tracker') ->
  detect_vehicles_iter lane_idx ts fc s =
  (Raise e,
   set_vehicle_detectors (<[lane_idx := tracker']> (vehicle_detectors s))
     (set_caps (<[lane_idx := cap']> (caps s)) s)).
Proof.
  intros Hcap Hread Hproc Htr Hdet.
  assert (Hlt : (lane_idx < length (caps s))%nat) by (by eapply lookup_lt_Some).
  assert (Hlt' : (lane_idx < length (vehicle_detectors s))%nat)
    by (by eapply lookup_lt_Some).
  unfold detect_vehicles_iter.
  erewrite bind_run by (by apply load_run). rewrite Hread.
  erewrite bind_run by (by apply store_run).
  rewrite Hproc. simpl Z.eqb. cbv iota.
  erewrite bind_raise; [reflexivity|].
  erewrite bind_run by (by apply load_run). rewrite Hdet.
  erewrite bind_run by (by apply store_run).
  reflexivity.
Qed.

Lemma detect_vehicles_iter_processed (lane_idx : nat) (ts : Timestamp)
    (fc : Z) (s : TrafficSignalSystem) (cap cap' : VideoCapture) (f : Frame)
    (tracker tracker' : VehicleDetectionTracker) (res : DetectionResult) :
  pipeline_wf lane_idx s ->
  caps s !! lane_idx = Some cap ->
  cap_read cap = (Some f, cap') ->
  fc mod frame_skip = 0 ->
  vehicle_detectors s !! lane_idx = Some tracker ->
  process_frame tracker f ts = (Ok res, tracker') ->
  exists s',
    detect_vehicles_iter lane_idx ts fc s = (Ok (fc + 1), s') /\
    lane_view lane_idx s' =
      {| view_frame := Some (Some f);
         view_vehicle_count := Some (number_of_vehicles_detected res);
         view_average_speed :=
           Some (average_of (reported_speeds (detected_vehicles_of res)));
         view_vehicles := Some (detected_vehicles_of res) |} /\
    caps s' = <[lane_idx := cap']> (caps s).
Proof.
  intros (Hlt & Hlt' & Hf & Hc & Ha & Hd) Hcap Hread Hproc Htr Hdet.
  unfold detect_vehicles_iter.
  erewrite bind_run by (by apply load_run). rewrite Hread.
  erewrite bind_run by (by apply store_run).
  rewrite Hproc. simpl Z.eqb. cbv iota.
  eexists. split.
  - erewrite bind_run; [reflexivity|].
    erewrite bind_run by (by apply load_run). rewrite Hdet.
    erewrite bind_run by (by apply store_run).
    erewrite bind_run by reflexivity.
    erewrite bind_run by (by apply store_run).
    by apply process_lane_result_run.
  - simpl. split; [|reflexivity].
    unfold lane_view. simpl. f_equal; by apply list_lookup_insert_eq.
Qed.


End Ingestion.

Section IngestionDemo.

#[local] Existing Instance demo.



End IngestionDemo.

Section FileBacked.

Variable F : Type.
Variable library : string -> list F.
Variable detector : F -> result DetectionResult.
Variable encode : F -> list byte.

Let recorded : Collaborators := file_backed F library detector encode.
#[local] Existing Instance recorded.


End FileBacked.

Section FileBackedDemo.

#[local] Existing Instance demo.


End FileBackedDemo.

(** * Further properties of the module *)

Section Keeps.

Context `{Ext : Collaborators}.

Variable R : TrafficSignalSystem -> TrafficSignalSystem -> Prop.
Hypothesis R_refl : forall s, R s s.

Lemma preserves_store_at {A : Type} (field : TrafficSignalSystem -> list A)
    (setter : list A -> TrafficSignalSystem -> TrafficSignalSystem)
    (i : nat) (v : A) :
  (forall s, (i < length (field s))%nat -> R s (setter (<[i := v]> (field s)) s)) ->
  preserves R (store field setter i v).
Proof.
  intros Hset s. unfold store, bind, gets, lift, puts, setitem. simpl.
  destruct (decide _); simpl; [by apply Hset | apply R_refl].
Qed.

Lemma preserves_puts {A : Type}
    (setter : A -> TrafficSignalSystem -> TrafficSignalSystem) (v : A) :
  (forall s, R s (setter v s)) -> preserves R (puts setter v).
Proof. intros Hset s. apply Hset. Qed.

End Keeps.

(** One step through a program, leaving the stores and assignments to show. *)
Ltac keeps_step :=
  first
    [ by apply preserves_ret | by apply preserves_raise | by apply preserves_gets
    | by apply preserves_lift | by apply preserves_load
    | lazymatch goal with
      | |- preserves _ (store _ _ _ _) => apply preserves_store_at; [assumption | ]
      | |- preserves _ (puts _ _) => apply preserves_puts
      | |- preserves _ (bind _ _) => apply preserves_bind; [assumption | | intros ?]
      end
    | match goal with
      | |- preserves _ (let (_, _) := ?p in _) => destruct p
      | |- preserves _ (match ?o with Some _ => _ | None => _ end) => destruct o
      | |- preserves _ (if ?b then _ else _) => destruct b
      end ].

Section Sizes.

Context `{Ext : Collaborators}.

Lemma same_sizes_refl (s : TrafficSignalSystem) : same_sizes s s.
Proof. by repeat split. Qed.

Lemma same_sizes_trans (s1 s2 s3 : TrafficSignalSystem) :
  same_sizes s1 s2 -> same_sizes s2 s3 -> same_sizes s1 s3.
Proof.
  intros (?&?&?&?&?&?&?) (?&?&?&?&?&?&?). repeat split; congruence.
Qed.

Ltac sizes_goal :=
  intros; unfold same_sizes; simpl; rewrite ?length_insert; by repeat split.

Lemma manage_signals_tick_sizes (t : Q) :
  preserves same_sizes (manage_signals_tick t).
Proof.
  pose proof same_sizes_refl. pose proof same_sizes_trans.
  unfold manage_signals_tick. repeat keeps_step; sizes_goal.
Qed.

Lemma detect_vehicles_iter_sizes (lane_idx : nat) (ts : Timestamp) (fc : Z) :
  preserves same_sizes (detect_vehicles_iter lane_idx ts fc).
Proof.
  pose proof same_sizes_refl. pose proof same_sizes_trans.
  unfold detect_vehicles_iter, process_lane_result. repeat keeps_step; sizes_goal.
Qed.

Lemma step_same_sizes (e : event) (s : TrafficSignalSystem) :
  same_sizes s (step e s).
Proof.
  destruct e as [t | lane ts fc | lane]; simpl.
  - apply manage_signals_tick_sizes.
  - apply detect_vehicles_iter_sizes.
  - rewrite <- (generate_frame_iter_pure lane s). apply same_sizes_refl.
Qed.

Lemma run_same_sizes (evs : list event) (s : TrafficSignalSystem) :
  same_sizes s (run evs s).
Proof.
  revert s. induction evs as [|e evs IH]; intros s; [apply same_sizes_refl|].
  simpl. eapply same_sizes_trans; [apply step_same_sizes | apply IH].
Qed.

Lemma same_sizes_pipeline_wf (lane_idx : nat) (s s' : TrafficSignalSystem) :
  same_sizes s s' -> pipeline_wf lane_idx s -> pipeline_wf lane_idx s'.
Proof.
  intros (Hd & Hc & Ha & _ & Hf & Hv & Hcap) (?&?&?&?&?&?).
  unfold pipeline_wf. rewrite Hd, Hc, Ha, Hf, Hv, Hcap. by repeat split.
Qed.

Lemma init_pipeline_wf (paths : list string) (now : Q) (lane_idx : nat) :
  (lane_idx < 4)%nat -> (lane_idx < length paths)%nat ->
  pipeline_wf lane_idx (init paths now).
Proof.
  intros H4 Hp. unfold pipeline_wf, init, py_repeat. simpl.
  rewrite length_map. by repeat split.
Qed.

Lemma reachable_pipeline_wf (paths : list string) (now : Q) (evs : list event)
    (lane_idx : nat) :
  (lane_idx < 4)%nat -> (lane_idx < length paths)%nat ->
  pipeline_wf lane_idx (run evs (init paths now)).
Proof.
  intros H4 Hp. eapply same_sizes_pipeline_wf; [apply run_same_sizes|].
  by apply init_pipeline_wf.
Qed.

End Sizes.

Section SchedulerMore.

Context `{Ext : Collaborators}.

Lemma get_green_time_range (s : TrafficSignalSystem) (count : Z) :
  scheduler_wf s -> 10 <= get_green_time s count <= 60.
Proof.
  intros (_ & _ & _ & Hmin & Hmax). unfold get_green_time.
  rewrite Hmin, Hmax.
  change ((60 + 10) / 2) with 35.
  destruct (count <? 5); [lia|]. destruct (count <? 15); lia.
Qed.

Lemma tick_too_early (t : Q) (s : TrafficSignalSystem) :
  scheduler_wf s ->
  (t - last_signal_change s <= 10)%Q ->
  manage_signals_tick t s = (Ok tt, s).
Proof.
  intros Hwf Hearly.
  destruct (scheduler_wf_count s Hwf) as [count Hcount].
  rewrite (manage_signals_tick_run t s count Hwf Hcount).
  destruct (Qgtb _ _) eqn:Hb; [|reflexivity].
  apply Qgtb_lt in Hb. exfalso.
  pose proof (get_green_time_range s count Hwf) as [Hlo _].
  rewrite Zle_Qle in Hlo.
  apply (Qlt_irrefl (t - last_signal_change s)).
  eapply Qle_lt_trans; [exact Hearly|].
  eapply Qle_lt_trans; [exact Hlo | exact Hb].
Qed.

Lemma tick_overdue (t : Q) (s : TrafficSignalSystem) :
  scheduler_wf s ->
  (60 < t - last_signal_change s)%Q ->
  manage_signals_tick t s = (Ok tt, advanced t s).
Proof.
  intros Hwf Hlate.
  destruct (scheduler_wf_count s Hwf) as [count Hcount].
  rewrite (manage_signals_tick_run t s count Hwf Hcount).
  destruct (Qgtb _ _) eqn:Hb; [reflexivity|].
  exfalso. apply not_true_iff_false in Hb. apply Hb. apply Qgtb_lt.
  pose proof (get_green_time_range s count Hwf) as [_ Hhi].
  rewrite Zle_Qle in Hhi.
  eapply Qle_lt_trans; [exact Hhi | exact Hlate].
Qed.

(** X1: on every state the system reaches, a check of the scheduler returns
    without raising: the index it reads and the two it writes are in range. *)
Theorem scheduler_check_never_raises (paths : list string) (now : Q)
    (evs : list event) (t : Q) :
  fst (manage_signals_tick t (run evs (init paths now))) = Ok tt.
Proof.
  pose proof (reachable_scheduler_wf paths now evs) as Hwf.
  destruct (scheduler_wf_count _ Hwf) as [count Hcount].
  by rewrite (manage_signals_tick_run t _ count Hwf Hcount).
Qed.

(** X2: on every state the system reaches, a check made no later than 10
    seconds after the last change of signal changes nothing, whatever the
    counts, and a check made later than 60 seconds after it always moves the
    green to the next lane and restarts the phase at the time of the check. *)
Theorem dwell_time_bounds (paths : list string) (now : Q) (evs : list event)
    (t : Q) :
  let s := run evs (init paths now) in
  ((t - last_signal_change s <= 10)%Q -> step (SchedulerTick t) s = s) /\
  ((60 < t - last_signal_change s)%Q ->
     step (SchedulerTick t) s = advanced t s /\
     current_green (step (SchedulerTick t) s) = ((current_green s + 1) mod 4)%nat /\
     last_signal_change (step (SchedulerTick t) s) = t).
Proof.
  intros s. pose proof (reachable_scheduler_wf paths now evs) as Hwf. fold s in Hwf.
  split.
  - intros Hearly. simpl. by rewrite tick_too_early.
  - intros Hlate. simpl. by rewrite tick_overdue.
Qed.

Lemma succ_mod_four (i : nat) :
  (i < 4)%nat ->
  ((((((i + 1) mod 4 + 1) mod 4 + 1) mod 4 + 1) mod 4) = i)%nat.
Proof.
  intros Hi. destruct i as [|[|[|[|i]]]]; try reflexivity. lia.
Qed.

(** X3: four transitions in a row bring the green back to the lane it started
    from, after one phase for each of the other three lanes: from any state
    the system reaches with lane [i] current, four checks each later than 60
    seconds after the one before make lanes [i+1], [i+2], [i+3] and [i]
    (mod 4) current in turn. *)
Theorem four_transitions_cycle (paths : list string) (now : Q)
    (evs : list event) (t1 t2 t3 t4 : Q) :
  let s := run evs (init paths now) in
  let i := current_green s in
  (60 < t1 - last_signal_change s)%Q ->
  (60 < t2 - t1)%Q -> (60 < t3 - t2)%Q -> (60 < t4 - t3)%Q ->
  current_green (run [SchedulerTick t1] s) = ((i + 1) mod 4)%nat /\
  current_green (run [SchedulerTick t1; SchedulerTick t2] s)
    = ((i + 2) mod 4)%nat /\
  current_green (run [SchedulerTick t1; SchedulerTick t2; SchedulerTick t3] s)
    = ((i + 3) mod 4)%nat /\
  current_green
    (run [SchedulerTick t1; SchedulerTick t2; SchedulerTick t3; SchedulerTick t4] s)
    = i /\
  only_green i
    (run [SchedulerTick t1; SchedulerTick t2; SchedulerTick t3; SchedulerTick t4] s).
Proof.
  intros s i H1 H2 H3 H4.
  pose proof (reachable_scheduler_wf paths now evs) as Hwf. fold s in Hwf.
  assert (Hi : (i < 4)%nat) by (destruct Hwf as (_ & _ & Hg & _); exact Hg).
  pose proof (tick_overdue t1 s Hwf H1) as E1.
  pose proof (scheduler_wf_advanced t1 s Hwf) as Hwf1.
  pose proof (tick_overdue t2 (advanced t1 s) Hwf1 H2) as E2.
  pose proof (scheduler_wf_advanced t2 _ Hwf1) as Hwf2.
  pose proof (tick_overdue t3 (advanced t2 (advanced t1 s)) Hwf2 H3) as E3.
  pose proof (scheduler_wf_advanced t3 _ Hwf2) as Hwf3.
  pose proof (tick_overdue t4 (advanced t3 (advanced t2 (advanced t1 s))) Hwf3 H4)
    as E4.
  assert (R1 : run [SchedulerTick t1] s = advanced t1 s)
    by (unfold run; cbn [fold_left step]; by rewrite E1).
  assert (R2 : run [SchedulerTick t1; SchedulerTick t2] s
               = advanced t2 (advanced t1 s))
    by (unfold run; cbn [fold_left step]; rewrite E1; cbn [snd]; by rewrite E2).
  assert (R3 : run [SchedulerTick t1; SchedulerTick t2; SchedulerTick t3] s
               = advanced t3 (advanced t2 (advanced t1 s)))
    by (unfold run; cbn [fold_left step]; rewrite E1; cbn [snd]; rewrite E2;
        cbn [snd]; by rewrite E3).
  assert (R4 : run [SchedulerTick t1; SchedulerTick t2; SchedulerTick t3;
                    SchedulerTick t4] s
               = advanced t4 (advanced t3 (advanced t2 (advanced t1 s))))
    by (unfold run; cbn [fold_left step]; rewrite E1; cbn [snd]; rewrite E2;
        cbn [snd]; rewrite E3; cbn [snd]; by rewrite E4).
  rewrite R1, R2, R3, R4.
  assert (C4 : current_green (advanced t4 (advanced t3 (advanced t2 (advanced t1 s))))
               = i).
  { simpl. fold i. by apply succ_mod_four. }
  split_and!.
  - reflexivity.
  - simpl. fold i. destruct i as [|[|[|[|i]]]]; try reflexivity. lia.
  - simpl. fold i. destruct i as [|[|[|[|i]]]]; try reflexivity. lia.
  - exact C4.
  - rewrite <- C4 at 1. apply advanced_only_green; [exact Hwf3|].
    left. apply advanced_only_green; [exact Hwf2|].
    left. apply advanced_only_green; [exact Hwf1|].
    pose proof (lights_invariant paths now evs) as Hinv. simpl in Hinv.
    fold s in Hinv.
    assert (Hone : only_green (current_green (advanced t1 s)) (advanced t1 s)).
    { apply advanced_only_green; [exact Hwf|].
      destruct Hinv as [[Hred _] | Hone]; [by right | by left]. }
    by left.
Qed.

Lemma same_lane_data_refl (s : TrafficSignalSystem) : same_lane_data s s.
Proof. by repeat split. Qed.

Lemma same_lane_data_trans (s1 s2 s3 : TrafficSignalSystem) :
  same_lane_data s1 s2 -> same_lane_data s2 s3 -> same_lane_data s1 s3.
Proof.
  intros (?&?&?&?&?&?) (?&?&?&?&?&?). repeat split; congruence.
Qed.

(** X20: a check of the scheduler, on any state and whether it returns or
    raises, writes none of what the pipelines own: frames, vehicle counts,
    average speeds, vehicle records, captures and trackers are as before. *)
Theorem scheduler_leaves_lane_data (t : Q) (s : TrafficSignalSystem) :
  same_lane_data s (step (SchedulerTick t) s) /\
  (forall lane_idx,
     lane_view lane_idx (step (SchedulerTick t) s) = lane_view lane_idx s).
Proof.
  assert (Hkeep : preserves same_lane_data (manage_signals_tick t)).
  { pose proof same_lane_data_refl. pose proof same_lane_data_trans.
    unfold manage_signals_tick. repeat keeps_step; intros; by repeat split. }
  split; [apply Hkeep|].
  intros lane_idx. destruct (Hkeep s) as (Hf & Hc & Ha & Hd & _).
  unfold lane_view. simpl. by rewrite Hf, Hc, Ha, Hd.
Qed.

(** X21: for any setting of the two green times with [min_green_time] not
    above [max_green_time], [get_green_time] stays between them for every
    count, negative ones included, and is monotone in the count. *)
Theorem get_green_time_between (self : TrafficSignalSystem) :
  min_green_time self <= max_green_time self ->
  (forall count,
     min_green_time self <= get_green_time self count <= max_green_time self) /\
  (forall c1 c2, c1 <= c2 -> get_green_time self c1 <= get_green_time self c2).
Proof.
  intros Hle.
  assert (Hmid : min_green_time self
                 <= (max_green_time self + min_green_time self) / 2
                 <= max_green_time self).
  { split.
    - apply Z.div_le_lower_bound; lia.
    - apply Z.div_le_upper_bound; lia. }
  split.
  - intros count. unfold get_green_time.
    destruct (count <? 5); [lia|]. destruct (count <? 15); lia.
  - intros c1 c2 H12. unfold get_green_time.
    destruct (Z.ltb_spec c1 5), (Z.ltb_spec c2 5),
             (Z.ltb_spec c1 15), (Z.ltb_spec c2 15); lia.
Qed.

End SchedulerMore.

Section PipelineMore.

Context `{Ext : Collaborators}.

Lemma other_lanes_same_refl (lane_idx : nat) (s : TrafficSignalSystem) :
  other_lanes_same lane_idx s s.
Proof. by intros other Hne. Qed.

Lemma other_lanes_same_trans (lane_idx : nat) (s1 s2 s3 : TrafficSignalSystem) :
  other_lanes_same lane_idx s1 s2 -> other_lanes_same lane_idx s2 s3 ->
  other_lanes_same lane_idx s1 s3.
Proof.
  intros H12 H23 other Hne.
  destruct (H12 other Hne) as (?&?&?), (H23 other Hne) as (?&?&?).
  split_and!; congruence.
Qed.

Lemma detect_vehicles_iter_other_lanes (lane_idx : nat) (ts : Timestamp) (fc : Z) :
  preserves (other_lanes_same lane_idx) (detect_vehicles_iter lane_idx ts fc).
Proof.
  pose proof (other_lanes_same_refl lane_idx).
  pose proof (other_lanes_same_trans lane_idx).
  unfold detect_vehicles_iter, process_lane_result.
  repeat keeps_step; intros s0 Hlt other Hne; unfold lane_view; simpl;
    by rewrite ?list_lookup_insert_ne.
Qed.

(** X6: an iteration of one lane's pipeline, on any state and whether it
    returns or raises, leaves every other lane as it was: its frame, count,
    average speed and vehicle records, its capture and its tracker. *)
Theorem pipeline_touches_own_lane_only (lane_idx other : nat) (ts : Timestamp)
    (fc : Z) (s : TrafficSignalSystem) :
  other <> lane_idx ->
  let s' := snd (detect_vehicles_iter lane_idx ts fc s) in
  lane_view other s' = lane_view other s /\
  caps s' !! other = caps s !! other /\
  vehicle_detectors s' !! other = vehicle_detectors s !! other.
Proof.
  intros Hne. by apply detect_vehicles_iter_other_lanes.
Qed.

Lemma same_but_caps_refl (s : TrafficSignalSystem) : same_but_caps s s.
Proof. split_and!; try reflexivity. apply same_schedule_refl. Qed.

Lemma same_but_caps_trans (s1 s2 s3 : TrafficSignalSystem) :
  same_but_caps s1 s2 -> same_but_caps s2 s3 -> same_but_caps s1 s3.
Proof.
  intros (?&?&?&?&?&?) (?&?&?&?&?&?).
  split_and!; try congruence. by eapply same_schedule_trans.
Qed.

(** X7: on a frame that is not a third one (the counter is not a multiple of
    3), the detector is not called and nothing is published: trackers,
    frames, counts, average speeds, vehicle records and the scheduler's state
    are as before, and the iteration returns the counter unchanged (the read
    failed) or one higher, or raises [IndexError] (no such capture). *)
Theorem skipped_frame_changes_nothing (lane_idx : nat) (ts : Timestamp) (fc : Z)
    (s : TrafficSignalSystem) :
  fc mod frame_skip <> 0 ->
  same_but_caps s (snd (detect_vehicles_iter lane_idx ts fc s)) /\
  (fst (detect_vehicles_iter lane_idx ts fc s) = Ok fc \/
   fst (detect_vehicles_iter lane_idx ts fc s) = Ok (fc + 1) \/
   fst (detect_vehicles_iter lane_idx ts fc s) = Raise IndexError).
Proof.
  intros Hskip.
  assert (Hb : (fc mod frame_skip =? 0) = false) by (by apply Z.eqb_neq).
  split.
  - pose proof same_but_caps_refl. pose proof same_but_caps_trans.
    assert (Hkeep : preserves same_but_caps (detect_vehicles_iter lane_idx ts fc)).
    { unfold detect_vehicles_iter.
      repeat first [ rewrite Hb | keeps_step ].
      all: intros s0 Hlt; split_and!; try reflexivity; by repeat split. }
    apply Hkeep.
  - destruct (caps s !! lane_idx) as [cap|] eqn:Hcap.
    + destruct (cap_read cap) as [[f|] cap'] eqn:Hread.
      * right. left.
        by rewrite (detect_vehicles_iter_skipped lane_idx ts fc s cap cap' f).
      * left.
        by rewrite (detect_vehicles_iter_unreadable lane_idx ts fc s cap cap').
    + right. right. unfold detect_vehicles_iter.
      erewrite bind_raise; [reflexivity|]. by apply load_raise.
Qed.

Lemma detect_vehicles_iter_outcomes (lane_idx : nat) (ts : Timestamp) (fc : Z)
    (s : TrafficSignalSystem) :
  pipeline_wf lane_idx s ->
  (exists s', detect_vehicles_iter lane_idx ts fc s = (Ok fc, s')) \/
  (exists s', detect_vehicles_iter lane_idx ts fc s = (Ok (fc + 1), s')) \/
  (exists e s' tracker f,
     detect_vehicles_iter lane_idx ts fc s = (Raise e, s') /\
     vehicle_detectors s !! lane_idx = Some tracker /\
     fst (process_frame tracker f ts) = Raise e).
Proof.
  intros Hwf. pose proof Hwf as (Hc & Htr & _).
  destruct (lookup_lt_is_Some_2 _ _ Hc) as [cap Hcap].
  destruct (lookup_lt_is_Some_2 _ _ Htr) as [tracker Htracker].
  destruct (cap_read cap) as [[f|] cap'] eqn:Hread.
  - destruct (Z.eq_dec (fc mod frame_skip) 0) as [Hproc | Hskip].
    + destruct (process_frame tracker f ts) as [[res|e] tracker'] eqn:Hdet.
      * right. left.
        destruct (detect_vehicles_iter_processed lane_idx ts fc s cap cap' f
                    tracker tracker' res Hwf Hcap Hread Hproc Htracker Hdet)
          as (s' & Hiter & _).
        by exists s'.
      * right. right. exists e. eexists. exists tracker, f. split_and!.
        -- by eapply detect_vehicles_iter_detector_raises.
        -- exact Htracker.
        -- by rewrite Hdet.
    + right. left. eexists. by eapply detect_vehicles_iter_skipped.
  - left. eexists. by eapply detect_vehicles_iter_unreadable.
Qed.

(** X5: with four paths given to the constructor, as the module gives, an
    iteration of the pipeline of any of the four lanes, on any state the
    system reaches, returns the counter unchanged or one higher, or raises
    what the detector raised on the frame: it raises no [IndexError]. *)
Theorem pipeline_raises_only_detector_errors (paths : list string) (now : Q)
    (evs : list event) (lane_idx : nat) (ts : Timestamp) (fc : Z) :
  length paths = 4%nat ->
  (lane_idx < 4)%nat ->
  let s := run evs (init paths now) in
  (exists s', detect_vehicles_iter lane_idx ts fc s = (Ok fc, s')) \/
  (exists s', detect_vehicles_iter lane_idx ts fc s = (Ok (fc + 1), s')) \/
  (exists e s' tracker f,
     detect_vehicles_iter lane_idx ts fc s = (Raise e, s') /\
     vehicle_detectors s !! lane_idx = Some tracker /\
     fst (process_frame tracker f ts) = Raise e).
Proof.
  intros Hpaths Hlane s.
  apply detect_vehicles_iter_outcomes.
  apply reachable_pipeline_wf; [exact Hlane | by rewrite Hpaths].
Qed.

(** X4: the constructor opens one capture per path but sizes every other list
    for four lanes; with fewer than four paths, the pipeline of a lane without
    a path raises [IndexError] on [self.caps[lane_idx]], before it reads a
    frame, on any state the system reaches, and writes nothing. *)
Theorem pipeline_without_path_raises (paths : list string) (now : Q)
    (evs : list event) (lane_idx : nat) (ts : Timestamp) (rest : list Timestamp)
    (fc : Z) :
  (length paths <= lane_idx)%nat ->
  let s := run evs (init paths now) in
  length (caps s) = length paths /\
  length (frames s) = 4%nat /\
  detect_vehicles_loop lane_idx (ts :: rest) fc s = (Raise IndexError, s).
Proof.
  intros Hshort s.
  destruct (run_same_sizes evs (init paths now)) as (_ & _ & _ & _ & Hf & _ & Hcap).
  fold s in Hf, Hcap. simpl in Hf, Hcap. rewrite length_map in Hcap.
  split_and!; [exact Hcap | exact Hf |].
  simpl. erewrite bind_raise; [reflexivity|].
  unfold detect_vehicles_iter. erewrite bind_raise; [reflexivity|].
  apply load_raise, lookup_ge_None. by rewrite Hcap.
Qed.

Lemma detect_vehicles_iter_total (lane_idx : nat) (ts : Timestamp) (fc : Z)
    (s : TrafficSignalSystem) :
  detector_total ->
  pipeline_wf lane_idx s ->
  exists fc' s',
    detect_vehicles_iter lane_idx ts fc s = (Ok fc', s') /\
    fc <= fc' <= fc + 1 /\
    pipeline_wf lane_idx s'.
Proof.
  intros Htotal Hwf.
  assert (Hwf' : pipeline_wf lane_idx (snd (detect_vehicles_iter lane_idx ts fc s))).
  { eapply same_sizes_pipeline_wf; [apply detect_vehicles_iter_sizes | exact Hwf]. }
  destruct (detect_vehicles_iter_outcomes lane_idx ts fc s Hwf)
    as [[s' Hiter] | [[s' Hiter] | (e & s' & tracker & f & Hiter & _ & Hraise)]].
  - exists fc, s'. rewrite Hiter in Hwf'. split_and!; [exact Hiter | lia | lia | exact Hwf'].
  - exists (fc + 1), s'. rewrite Hiter in Hwf'.
    split_and!; [exact Hiter | lia | lia | exact Hwf'].
  - exfalso. destruct (Htotal tracker f ts) as (res & tracker' & Hok).
    rewrite Hok in Hraise. discriminate Hraise.
Qed.

(** X8: when the detector returns on every frame, a pipeline whose lane is in
    range never stops: however many iterations it is run for, the loop returns
    from all of them, with a counter that grew by at most one per iteration. *)
Theorem pipeline_never_stops (lane_idx : nat) (timestamps : list Timestamp)
    (fc : Z) (s : TrafficSignalSystem) :
  detector_total ->
  pipeline_wf lane_idx s ->
  exists fc' s',
    detect_vehicles_loop lane_idx timestamps fc s = (Ok fc', s') /\
    fc <= fc' <= fc + Z.of_nat (length timestamps) /\
    pipeline_wf lane_idx s'.
Proof.
  intros Htotal. revert fc s.
  induction timestamps as [|ts rest IH]; intros fc s Hwf.
  - exists fc, s. split_and!; [reflexivity | lia | simpl; lia | exact Hwf].
  - destruct (detect_vehicles_iter_total lane_idx ts fc s Htotal Hwf)
      as (fc1 & s1 & Hiter & Hfc1 & Hwf1).
    destruct (IH fc1 s1 Hwf1) as (fc' & s' & Hloop & Hfc' & Hwf').
    exists fc', s'. split_and!; [| | | exact Hwf'].
    + simpl. erewrite bind_run by exact Hiter. exact Hloop.
    + lia.
    + simpl length. lia.
Qed.

End PipelineMore.

Section LaneResultMore.

Context `{Ext : Collaborators}.


(** X12: nothing of an earlier observation survives a later one for the same
    lane: processing [res1] and then [res2] leaves the object exactly as
    processing [res2] alone does. *)
Theorem later_observation_replaces_earlier (res1 res2 : DetectionResult)
    (lane_idx : nat) (s : TrafficSignalSystem) :
  (lane_idx < length (vehicle_counts s))%nat ->
  (lane_idx < length (average_speeds s))%nat ->
  (lane_idx < length (detected_vehicles s))%nat ->
  snd (process_lane_result res2 lane_idx (snd (process_lane_result res1 lane_idx s)))
  = snd (process_lane_result res2 lane_idx s).
Proof.
  intros Hc Ha Hd.
  rewrite (process_lane_result_run res1 lane_idx s Hc Ha Hd). cbn [snd].
  rewrite process_lane_result_run by (simpl; by rewrite length_insert).
  rewrite (process_lane_result_run res2 lane_idx s Hc Ha Hd).
  simpl. by rewrite !list_insert_insert_eq.
Qed.

(** X13: observations for two different lanes can be processed in either
    order: the object ends up the same. *)
Theorem observations_of_two_lanes_commute (res1 res2 : DetectionResult)
    (lane1 lane2 : nat) (s : TrafficSignalSystem) :
  lane1 <> lane2 ->
  (lane1 < length (vehicle_counts s))%nat ->
  (lane1 < length (average_speeds s))%nat ->
  (lane1 < length (detected_vehicles s))%nat ->
  (lane2 < length (vehicle_counts s))%nat ->
  (lane2 < length (average_speeds s))%nat ->
  (lane2 < length (detected_vehicles s))%nat ->
  snd (process_lane_result res2 lane2 (snd (process_lane_result res1 lane1 s)))
  = snd (process_lane_result res1 lane1 (snd (process_lane_result res2 lane2 s))).
Proof.
  intros Hne Hc1 Ha1 Hd1 Hc2 Ha2 Hd2.
  rewrite (process_lane_result_run res1 lane1 s Hc1 Ha1 Hd1).
  rewrite (process_lane_result_run res2 lane2 s Hc2 Ha2 Hd2). cbn [snd].
  rewrite !process_lane_result_run by (simpl; by rewrite length_insert).
  simpl.
  rewrite (list_insert_insert_ne (vehicle_counts s) lane1 lane2) by exact Hne.
  rewrite (list_insert_insert_ne (average_speeds s) lane1 lane2) by exact Hne.
  rewrite (list_insert_insert_ne (detected_vehicles s) lane1 lane2) by exact Hne.
  reflexivity.
Qed.

Lemma sum_between (l : list Q) (lo hi : Q) :
  Forall (fun q => (lo <= q <= hi)%Q) l ->
  (inject_Z (Z.of_nat (length l)) * lo <= fold_right Qplus 0 l
   <= inject_Z (Z.of_nat (length l)) * hi)%Q.
Proof.
  induction 1 as [|q l [Hlo Hhi] _ [IHlo IHhi]].
  - simpl. split; rewrite Qmult_0_l; apply Qle_refl.
  - cbn [length fold_right].
    rewrite Nat2Z.inj_succ, <- Z.add_1_l, inject_Z_plus.
    split.
    + rewrite Qmult_plus_distr_l, Qmult_1_l. by apply Qplus_le_compat.
    + rewrite Qmult_plus_distr_l, Qmult_1_l. by apply Qplus_le_compat.
Qed.

Lemma average_of_between (speeds : list Q) (lo hi : Q) :
  speeds <> [] ->
  Forall (fun q => (lo <= q <= hi)%Q) speeds ->
  (lo <= average_of speeds <= hi)%Q.
Proof.
  intros Hne Hall. destruct speeds as [|q l]; [contradiction|].
  unfold average_of, np_mean.
  pose proof (sum_between (q :: l) lo hi Hall) as [Hlo Hhi].
  assert (Hpos : (0 < inject_Z (Z.of_nat (length (q :: l))))%Q).
  { rewrite <- (Zlt_Qlt 0). simpl length. lia. }
  assert (Hsum : (fold_left Qplus (q :: l) 0 == fold_right Qplus 0 (q :: l))%Q).
  { rewrite fold_left_Qplus_acc. apply Qplus_0_l. }
  rewrite Hsum. split.
  - apply Qle_shift_div_l; [exact Hpos|]. by rewrite Qmult_comm.
  - apply Qle_shift_div_r; [exact Hpos|]. by rewrite Qmult_comm.
Qed.


End LaneResultMore.

Section FileBackedMore.

Variable F : Type.
Variable library : string -> list F.
Variable detector : F -> result DetectionResult.
Variable encode : F -> list byte.

Let recorded' : Collaborators := file_backed F library detector encode.
#[local] Existing Instance recorded'.

Lemma file_iter_at_end (lane_idx : nat) (ts : Q) (fc : Z)
    (s : TrafficSignalSystem) (cap : FileCapture F) :
  caps s !! lane_idx = Some cap ->
  video cap !! pos cap = None ->
  detect_vehicles_iter lane_idx ts fc s =
  (Ok fc,
   set_caps (<[lane_idx := {| video := video cap; pos := 0 |}]> (caps s)) s).
Proof.
  intros Hcap Hend.
  assert (Hread : cap_read cap = (None, cap)).
  { simpl. unfold file_read. by rewrite Hend. }
  by rewrite (detect_vehicles_iter_unreadable (Ext := recorded')
                lane_idx ts fc s cap cap Hcap Hread).
Qed.

Lemma file_iter_reads (lane_idx : nat) (ts : Q) (fc : Z)
    (s : TrafficSignalSystem) (cap : FileCapture F) (f : F) :
  (forall f, exists res, detector f = Ok res) ->
  pipeline_wf lane_idx s ->
  caps s !! lane_idx = Some cap ->
  video cap !! pos cap = Some f ->
  exists s',
    detect_vehicles_iter lane_idx ts fc s = (Ok (fc + 1), s') /\
    caps s' !! lane_idx = Some {| video := video cap; pos := S (pos cap) |} /\
    pipeline_wf lane_idx s'.
Proof.
  intros Htotal Hwf Hcap Hf.
  assert (Hread : cap_read cap
                  = (Some f, {| video := video cap; pos := S (pos cap) |})).
  { simpl. unfold file_read. by rewrite Hf. }
  assert (Hwf' : pipeline_wf lane_idx (snd (detect_vehicles_iter lane_idx ts fc s))).
  { eapply same_sizes_pipeline_wf; [apply detect_vehicles_iter_sizes | exact Hwf]. }
  pose proof Hwf as (Hc & Htr & _).
  destruct (Z.eq_dec (fc mod frame_skip) 0) as [Hproc | Hskip].
  - destruct (lookup_lt_is_Some_2 _ _ Htr) as [tracker Htracker].
    destruct (Htotal f) as [res Hres].
    destruct (detect_vehicles_iter_processed (Ext := recorded')
                lane_idx ts fc s cap _ f tracker (S tracker) res
                Hwf Hcap Hread Hproc Htracker)
      as (s' & Hiter & _ & Hcaps).
    { simpl. by rewrite Hres. }
    exists s'. rewrite Hiter in Hwf'. split_and!; [exact Hiter | | exact Hwf'].
    rewrite Hcaps. by apply list_lookup_insert_eq.
  - pose proof (detect_vehicles_iter_skipped (Ext := recorded')
                  lane_idx ts fc s cap _ f Hcap Hread Hskip) as Hiter.
    eexists. rewrite Hiter in Hwf'. split_and!; [exact Hiter | | exact Hwf'].
    simpl. by apply list_lookup_insert_eq.
Qed.

(** X9: over an empty recording a pipeline spins without ever publishing:
    however many iterations it runs, the loop returns with the counter it
    started from, and frames, counts, average speeds, vehicle records,
    trackers and the scheduler's state are as before. *)
Theorem empty_recording_publishes_nothing (lane_idx : nat) (timestamps : list Q)
    (fc : Z) (s : TrafficSignalSystem) (cap : FileCapture F) :
  caps s !! lane_idx = Some cap ->
  video cap = [] ->
  exists s',
    detect_vehicles_loop lane_idx timestamps fc s = (Ok fc, s') /\
    same_but_caps s s'.
Proof.
  revert s cap. induction timestamps as [|ts rest IH]; intros s cap Hcap Hempty.
  - exists s. split; [reflexivity | apply same_but_caps_refl].
  - assert (Hend : video cap !! pos cap = None) by (by rewrite Hempty).
    pose proof (file_iter_at_end lane_idx ts fc s cap Hcap Hend) as Hiter.
    destruct (IH (set_caps (<[lane_idx := {| video := video cap; pos := 0 |}]> (caps s)) s)
                 {| video := video cap; pos := 0 |})
      as (s' & Hloop & Hsame).
    + simpl. apply list_lookup_insert_eq. by eapply lookup_lt_Some.
    + exact Hempty.
    + exists s'. split.
      * simpl. erewrite bind_run by exact Hiter. exact Hloop.
      * eapply same_but_caps_trans; [|exact Hsame].
        split_and!; try reflexivity. by repeat split.
Qed.

(** X10: with a detector that returns on every frame, a pass over the rest of
    a recording takes one iteration per frame left and one more at the end of
    the stream: after them the counter is higher by the number of frames read,
    and the capture is back at position 0 of the same recording. *)
Theorem pass_over_recording (lane_idx : nat) (timestamps : list Q)
    (fc : Z) (s : TrafficSignalSystem) (cap : FileCapture F) :
  (forall f, exists res, detector f = Ok res) ->
  pipeline_wf lane_idx s ->
  caps s !! lane_idx = Some cap ->
  (pos cap <= length (video cap))%nat ->
  length timestamps = S (length (video cap) - pos cap) ->
  exists s',
    detect_vehicles_loop lane_idx timestamps fc s
      = (Ok (fc + Z.of_nat (length (video cap) - pos cap)), s') /\
    caps s' !! lane_idx = Some {| video := video cap; pos := 0 |} /\
    pipeline_wf lane_idx s'.
Proof.
  intros Htotal. revert fc s cap.
  induction timestamps as [|ts rest IH]; intros fc s cap Hwf Hcap Hpos Hlen;
    [discriminate Hlen|].
  destruct (video cap !! pos cap) as [f|] eqn:Hf.
  - pose proof (lookup_lt_Some _ _ _ Hf) as Hlt.
    destruct (file_iter_reads lane_idx ts fc s cap f Htotal Hwf Hcap Hf)
      as (s1 & Hiter & Hcap1 & Hwf1).
    destruct (IH (fc + 1) s1 {| video := video cap; pos := S (pos cap) |}
                 Hwf1 Hcap1)
      as (s' & Hloop & Hcap' & Hwf').
    + simpl. lia.
    + simpl in *. lia.
    + exists s'. split_and!; [| exact Hcap' | exact Hwf'].
      simpl detect_vehicles_loop. erewrite bind_run by exact Hiter.
      rewrite Hloop. simpl. do 2 f_equal. lia.
  - pose proof (lookup_ge_None_1 _ _ Hf) as Hge.
    assert (Hzero : (length (video cap) - pos cap = 0)%nat) by lia.
    rewrite Hzero in *. destruct rest; [|discriminate Hlen].
    pose proof (file_iter_at_end lane_idx ts fc s cap Hcap Hf) as Hiter.
    eexists. split_and!.
    + simpl detect_vehicles_loop. erewrite bind_run by exact Hiter.
      unfold ret. do 2 f_equal. simpl. lia.
    + simpl. apply list_lookup_insert_eq. by eapply lookup_lt_Some.
    + destruct Hwf as (?&?&?&?&?&?). unfold pipeline_wf. simpl.
      rewrite length_insert. by repeat split.
Qed.

End FileBackedMore.

Section PublisherMore.

Context `{Ext : Collaborators}.

Lemma four_elements {A : Type} (l : list A) :
  length l = 4%nat -> exists a b c d, l = [a; b; c; d].
Proof.
  intros Hlen. destruct l as [|a [|b [|c [|d [|e l]]]]]; try discriminate Hlen.
  by exists a, b, c, d.
Qed.

Lemma signal_data_run (s : TrafficSignalSystem) (c0 c1 c2 c3 : Z)
    (g0 g1 g2 g3 : string) :
  vehicle_counts s = [c0; c1; c2; c3] ->
  signal_states s = [g0; g1; g2; g3] ->
  signal_data s =
  (Ok [ {| lane := 1; vehicle_count := c0; signal := g0 |};
        {| lane := 2; vehicle_count := c1; signal := g1 |};
        {| lane := 3; vehicle_count := c2; signal := g2 |};
        {| lane := 4; vehicle_count := c3; signal := g3 |} ], s).
Proof.
  intros Hc Hg. unfold signal_data. simpl. unfold_ops. simpl.
  rewrite Hc, Hg. reflexivity.
Qed.

(** X15: on every state the system reaches, [signal_data] raises nothing,
    changes nothing and returns four entries, the entry at position [i]
    carrying lane number [i + 1] and the count and signal stored for lane
    [i]. *)
Theorem signal_data_reports_every_lane (paths : list string) (now : Q)
    (evs : list event) :
  let s := run evs (init paths now) in
  exists infos,
    signal_data s = (Ok infos, s) /\
    length infos = 4%nat /\
    map lane infos = [1; 2; 3; 4] /\
    map (fun info => Some (vehicle_count info)) infos
      = map (fun i => vehicle_counts s !! i) (seq 0 4) /\
    map (fun info => Some (signal info)) infos
      = map (fun i => signal_states s !! i) (seq 0 4).
Proof.
  intros s.
  destruct (reachable_scheduler_wf paths now evs) as (Hc & Hg & _).
  fold s in Hc, Hg.
  destruct (four_elements _ Hc) as (c0 & c1 & c2 & c3 & Hcs).
  destruct (four_elements _ Hg) as (g0 & g1 & g2 & g3 & Hgs).
  eexists. split; [by apply (signal_data_run s c0 c1 c2 c3 g0 g1 g2 g3)|].
  rewrite Hcs, Hgs. by split_and!.
Qed.


(** X17: [vehicle_logs] changes nothing and returns the vehicle records of the
    lanes one lane after the other; after an observation is processed for a
    lane, the log is the records of the lanes before it, then the
    observation's records, then the records of the lanes after it. *)
Theorem vehicle_logs_after_observation (res : DetectionResult) (lane_idx : nat)
    (s : TrafficSignalSystem) :
  (lane_idx < length (vehicle_counts s))%nat ->
  (lane_idx < length (average_speeds s))%nat ->
  (lane_idx < length (detected_vehicles s))%nat ->
  let s' := snd (process_lane_result res lane_idx s) in
  vehicle_logs s' =
  (Ok (concat (take lane_idx (detected_vehicles s))
       ++ detected_vehicles_of res
       ++ concat (drop (S lane_idx) (detected_vehicles s))), s').
Proof.
  intros Hc Ha Hd s'. subst s'.
  rewrite (process_lane_result_run res lane_idx s Hc Ha Hd).
  unfold vehicle_logs. unfold_ops. simpl.
  rewrite (insert_take_drop (detected_vehicles s)) by exact Hd.
  by rewrite concat_app, concat_cons.
Qed.

(** X18: the stream of a lane shows the frame the lane's pipeline processed
    last: right after an iteration that ran the detector on frame [f] and
    returned, the next element of the lane's stream is the chunk of [f]. *)
Theorem stream_shows_processed_frame (lane_idx : nat) (ts : Timestamp) (fc : Z)
    (s : TrafficSignalSystem) (cap : VideoCapture) (f : Frame)
    (tracker : VehicleDetectionTracker) (res : DetectionResult) (fuel : nat) :
  pipeline_wf lane_idx s ->
  caps s !! lane_idx = Some cap ->
  fst (cap_read cap) = Some f ->
  fc mod frame_skip = 0 ->
  vehicle_detectors s !! lane_idx = Some tracker ->
  fst (process_frame tracker f ts) = Ok res ->
  fst (generator_next (S fuel) lane_idx
         (snd (detect_vehicles_iter lane_idx ts fc s)))
  = Ok (Some (part_header ++ imencode_jpg (frame_copy f) ++ CRLF)).
Proof.
  intros Hwf Hcap Hread Hproc Htracker Hdet.
  destruct (cap_read cap) as [o cap'] eqn:Hr. simpl in Hread. subst o.
  destruct (process_frame tracker f ts) as [r tracker'] eqn:Hp.
  simpl in Hdet. subst r.
  destruct (detect_vehicles_iter_processed lane_idx ts fc s cap cap' f tracker
              tracker' res Hwf Hcap Hr Hproc Htracker Hp)
    as (s' & Hiter & Hview & _).
  rewrite Hiter. cbn [snd].
  assert (Hframe : frames s' !! lane_idx = Some (Some f)).
  { change (view_frame (lane_view lane_idx s') = Some (Some f)). by rewrite Hview. }
  by rewrite (generator_next_yield fuel lane_idx f s' Hframe).
Qed.

Lemma frames_kept_refl (s : TrafficSignalSystem) : frames_kept s s.
Proof. intros lane f Hf. by exists f. Qed.

Lemma frames_kept_trans (s1 s2 s3 : TrafficSignalSystem) :
  frames_kept s1 s2 -> frames_kept s2 s3 -> frames_kept s1 s3.
Proof.
  intros H12 H23 lane f Hf.
  destruct (H12 lane f Hf) as [f2 Hf2]. by apply (H23 lane f2).
Qed.

Lemma step_frames_kept (e : event) (s : TrafficSignalSystem) :
  frames_kept s (step e s).
Proof.
  pose proof frames_kept_refl. pose proof frames_kept_trans.
  destruct e as [t | lane ts fc | lane]; simpl.
  - assert (Hkeep : preserves frames_kept (manage_signals_tick t)).
    { unfold manage_signals_tick.
      repeat keeps_step; intros; intros l f0 Hf0; by exists f0. }
    apply Hkeep.
  - assert (Hkeep : preserves frames_kept (detect_vehicles_iter lane ts fc)).
    { unfold detect_vehicles_iter, process_lane_result.
      repeat keeps_step; intros s0 Hlt l f0 Hf0; simpl;
        try (by exists f0).
      destruct (decide (lane = l)) as [<- | Hne].
      - eexists. by apply list_lookup_insert_eq.
      - exists f0. by rewrite list_lookup_insert_ne. }
    apply Hkeep.
  - rewrite <- (generate_frame_iter_pure lane s). apply frames_kept_refl.
Qed.

(** X19: no code unsets a frame: once a lane has a frame, it has one on every
    later state, whatever the threads do, and every turn of the lane's
    generator loop yields a chunk (it neither stalls nor raises). *)
Theorem stream_once_started_keeps_yielding (evs : list event) (lane_idx : nat)
    (f : Frame) (s : TrafficSignalSystem) :
  frames s !! lane_idx = Some (Some f) ->
  exists f',
    frames (run evs s) !! lane_idx = Some (Some f') /\
    generate_frame_iter lane_idx (run evs s)
    = (Ok (Yield (part_header ++ imencode_jpg (frame_copy f') ++ CRLF)), run evs s).
Proof.
  intros Hf.
  assert (Hrun : frames_kept s (run evs s)).
  { clear Hf. revert s. induction evs as [|e evs IH]; intros s;
      [apply frames_kept_refl|].
    simpl. eapply frames_kept_trans; [apply step_frames_kept | apply IH]. }
  destruct (Hrun lane_idx f Hf) as [f' Hf'].
  exists f'. split; [exact Hf' | by apply generate_frame_iter_yield].
Qed.

End PublisherMore.

Section MoreDemo.

#[local] Existing Instance demo.

Lemma four_transitions_cycle_witness :
  current_green
    (run [SchedulerTick 61%Q; SchedulerTick 122%Q; SchedulerTick 183%Q;
          SchedulerTick 244%Q] demo_system) = 0%nat /\
  only_green 0
    (run [SchedulerTick 61%Q; SchedulerTick 122%Q; SchedulerTick 183%Q;
          SchedulerTick 244%Q] demo_system).
Proof.
  destruct (four_transitions_cycle demo_paths 0%Q [] 61%Q 122%Q 183%Q 244%Q)
    as (_ & _ & _ & Hback & Hone);
    try (vm_compute; reflexivity).
  split; [exact Hback | exact Hone].
Defined.

Lemma get_green_time_between_witness :
  10 <= get_green_time demo_system (-3) <= 60 /\
  get_green_time demo_system 7 <= get_green_time demo_system 20.
Proof.
  assert (Hle : min_green_time demo_system <= max_green_time demo_system)
    by (simpl; lia).
  destruct (get_green_time_between demo_system Hle) as [Hrange Hmono].
  split; [exact (Hrange (-3)) | apply Hmono; lia].
Defined.

Lemma pipeline_without_path_raises_witness :
  detect_vehicles_loop 2 [1%Q] 0 (init ["a.mp4"; "b.mp4"]%string 0%Q)
  = (Raise IndexError, init ["a.mp4"; "b.mp4"]%string 0%Q).
Proof.
  assert (Hshort : (length ["a.mp4"; "b.mp4"]%string <= 2)%nat) by (simpl; lia).
  exact (proj2 (proj2 (pipeline_without_path_raises
                         ["a.mp4"; "b.mp4"]%string 0%Q [] 2 1%Q [] 0 Hshort))).
Defined.

Lemma pipeline_raises_only_detector_errors_witness :
  (exists s', detect_vehicles_iter 2 1%Q 0 (traffic_system 0%Q) = (Ok 0, s')) \/
  (exists s', detect_vehicles_iter 2 1%Q 0 (traffic_system 0%Q) = (Ok (0 + 1), s')) \/
  (exists e s' tracker f,
     detect_vehicles_iter 2 1%Q 0 (traffic_system 0%Q) = (Raise e, s') /\
     vehicle_detectors (traffic_system 0%Q) !! 2%nat = Some tracker /\
     fst (process_frame tracker f 1%Q) = Raise e).
Proof.
  assert (Hlen : length module_paths = 4%nat) by reflexivity.
  assert (Hlane : (2 < 4)%nat) by lia.
  exact (pipeline_raises_only_detector_errors module_paths 0%Q [] 2 1%Q 0 Hlen Hlane).
Defined.

Lemma pipeline_touches_own_lane_only_witness :
  lane_view 1 (snd (detect_vehicles_iter 0 1%Q 0 demo_system))
  = lane_view 1 demo_system.
Proof.
  assert (Hne : 1%nat <> 0%nat) by discriminate.
  exact (proj1 (pipeline_touches_own_lane_only (Ext := demo)
                  0 1 1%Q 0 demo_system Hne)).
Defined.

Lemma skipped_frame_changes_nothing_witness :
  same_but_caps lane0_published (snd (detect_vehicles_iter 0 2%Q 1 lane0_published)).
Proof.
  assert (Hskip : 1 mod frame_skip <> 0) by discriminate.
  exact (proj1 (skipped_frame_changes_nothing (Ext := demo)
                  0 2%Q 1 lane0_published Hskip)).
Defined.

Lemma empty_recording_publishes_nothing_witness :
  exists s',
    detect_vehicles_loop 3 [1; 2; 3]%Q 0 demo_system = (Ok 0, s') /\
    same_but_caps demo_system s'.
Proof.
  exact (empty_recording_publishes_nothing Scene recordings scripted_detector
           scene_bytes 3 [1; 2; 3]%Q 0 demo_system
           {| video := []; pos := 0 |} eq_refl eq_refl).
Defined.

Lemma later_observation_replaces_earlier_witness :
  snd (process_lane_result next_observation 0
         (snd (process_lane_result scenario_c 0 demo_system)))
  = snd (process_lane_result next_observation 0 demo_system).
Proof.
  apply later_observation_replaces_earlier; simpl; lia.
Defined.

Lemma observations_of_two_lanes_commute_witness :
  snd (process_lane_result next_observation 1
         (snd (process_lane_result scenario_c 0 demo_system)))
  = snd (process_lane_result scenario_c 0
           (snd (process_lane_result next_observation 1 demo_system))).
Proof.
  apply observations_of_two_lanes_commute; simpl; lia.
Defined.


Lemma vehicle_logs_after_observation_witness :
  fst (vehicle_logs (snd (process_lane_result scenario_c 1 lane0_published)))
  = Ok (in_view three_cars ++ in_view three_cars).
Proof.
  assert (H1 : (1 < length (vehicle_counts lane0_published))%nat) by (simpl; lia).
  assert (H2 : (1 < length (average_speeds lane0_published))%nat) by (simpl; lia).
  assert (H3 : (1 < length (detected_vehicles lane0_published))%nat) by (simpl; lia).
  exact (f_equal fst
           (vehicle_logs_after_observation scenario_c 1 lane0_published H1 H2 H3)).
Defined.

Lemma stream_shows_processed_frame_witness :
  fst (generator_next 1 0 (snd (detect_vehicles_iter 0 1%Q 0 demo_system)))
  = Ok (Some (part_header ++ scene_bytes three_cars ++ CRLF)).
Proof.
  assert (Hwf : pipeline_wf 0 demo_system) by (vm_compute; repeat split; lia).
  exact (stream_shows_processed_frame (Ext := demo) 0 1%Q 0 demo_system
           {| video := recordings "a.mp4"; pos := 0 |} three_cars 0%nat
           scenario_c 0 Hwf eq_refl eq_refl eq_refl eq_refl eq_refl).
Defined.

Lemma stream_once_started_keeps_yielding_witness :
  exists f',
    frames (run [SchedulerTick 11%Q; PipelineIter 0 2%Q 1; PipelineIter 1 3%Q 0]
                lane0_published) !! 0%nat = Some (Some f').
Proof.
  destruct (stream_once_started_keeps_yielding (Ext := demo)
              [@SchedulerTick demo 11%Q; @PipelineIter demo 0 2%Q 1;
               @PipelineIter demo 1 3%Q 0]
              0 three_cars lane0_published eq_refl) as (f' & Hf' & _).
  by exists f'.
Defined.

End MoreDemo.

Section CalmDemo.

#[local] Existing Instance calm.

Lemma calm_detector_total : detector_total.
Proof.
  intros tracker f ts. exists (Build_DetectionResult
                                 (Z.of_nat (length (in_view f))) (in_view f)).
  by exists (S tracker).
Qed.

Lemma pipeline_never_stops_witness :
  exists fc' s',
    detect_vehicles_loop 2 [1; 2; 3; 4; 5; 6; 7]%Q 0 calm_system = (Ok fc', s') /\
    0 <= fc' <= 7.
Proof.
  assert (Hwf : pipeline_wf 2 calm_system) by (vm_compute; repeat split; lia).
  destruct (pipeline_never_stops (Ext := calm) 2 [1; 2; 3; 4; 5; 6; 7]%Q 0
              calm_system calm_detector_total Hwf)
    as (fc' & s' & Hloop & Hfc & _).
  exists fc', s'. split; [exact Hloop | exact Hfc].
Defined.

Lemma pass_over_recording_witness :
  exists s',
    detect_vehicles_loop 0 [1; 2; 3]%Q 0 calm_system = (Ok 2, s') /\
    caps s' !! 0%nat = Some {| video := [three_cars; empty_road]; pos := 0 |}.
Proof.
  assert (Hwf : pipeline_wf 0 calm_system) by (vm_compute; repeat split; lia).
  assert (Htotal : forall f : Scene, exists res, calm_detector f = Ok res)
    by (intros f; by eexists).
  destruct (pass_over_recording Scene recordings calm_detector scene_bytes
              0 [1; 2; 3]%Q 0 calm_system
              {| video := [three_cars; empty_road]; pos := 0 |}
              Htotal Hwf eq_refl)
    as (s' & Hloop & Hcap & _); [simpl; lia | reflexivity |].
  exists s'. split; [exact Hloop | exact Hcap].
Defined.

End CalmDemo.
